(** * Long main-thread tasks audit (lighthouse-core/audits/long-tasks.js)

    A shallow embedding of the task selection and attribution code of the
    [long-tasks] audit, of its earlier revision kept in the same file, and
    of the [main-thread-tasks] audit, followed by the properties the
    specification states about them.

    Modelling choices.
    - A finite JavaScript number is the rational [Q] it denotes: every
      finite double is a rational, [>=] is exact on doubles, and the sign of
      the rounded difference of two finite doubles is the sign of their
      exact difference.  [duration], the number the code compares and
      subtracts, is a [JS.Num]: such a rational or NaN, on which every
      comparison is false and every difference NaN.  [startTime] and
      [selfTime] are only copied and stay rationals.  The infinities are
      outside the model.
    - A field read through JavaScript truthiness or [===] is a [JS.Value],
      so that [undefined], [false] and the empty string stay distinct.
    - [Set<string>] is [gset string]; arrays are lists where only their
      contents matter, and objects of a heap ([Module Heap]) where it
      matters which array a method writes to.
    - [Array.prototype.sort] is stable (ECMAScript 2019); for a comparator
      that is consistent on the elements of the array the stable result is
      unique, so insertion from the right is an exact model of its result
      ([sort_perm], [sort_sorted] and [sort_stable] below).  When the
      comparator is not consistent (a NaN among the durations) the language
      leaves the order to the engine; insertion, with a NaN result read as
      +0 as SortCompare does, is then one order an engine may produce. *)

From Stdlib Require Import QArith Lqa.
From stdpp Require Import gmap strings list sorting pretty.

Set Warnings "-register-all".
Local Open Scope string_scope.

(** ** JavaScript values *)

Module JS.

(** A number: NaN, or a finite double read as the rational it denotes. *)
Inductive Num :=
| NaN
| Finite (q : Q).

(** [Number.isNaN(a)] *)
Definition is_NaN (a : Num) : bool :=
  match a with NaN => true | Finite _ => false end.

(** [a >= b]: false as soon as one side is NaN. *)
Definition ge (a b : Num) : bool :=
  match a, b with
  | Finite x, Finite y => Qle_bool y x
  | _, _ => false
  end.

(** [a === b] on numbers: NaN equals nothing, itself included. *)
Definition same (a b : Num) : bool :=
  match a, b with
  | Finite x, Finite y => Qeq_bool x y
  | _, _ => false
  end.

(** [a - b]: NaN as soon as one side is NaN. *)
Definition sub (a b : Num) : Num :=
  match a, b with
  | Finite x, Finite y => Finite (x - y)
  | _, _ => NaN
  end.

(** [a <= b] holds: both are numbers and ordered so. *)
Definition le (a b : Num) : Prop :=
  match a, b with
  | Finite x, Finite y => (x <= y)%Q
  | _, _ => False
  end.

Inductive Value :=
| Undefined
| Null
| Bool (b : bool)
| Number (n : Num)
| String (s : string).

(** ToBoolean of the language specification. *)
Definition ToBoolean (v : Value) : bool :=
  match v with
  | Undefined | Null => false
  | Bool b => b
  | Number NaN => false
  | Number (Finite q) => negb (Qeq_bool q 0)
  | String s => negb (String.eqb s "")
  end.

(** [!v] *)
Definition not (v : Value) : bool := negb (ToBoolean v).

(** [a || b]: the left operand when it is truthy, else the right one. *)
Definition or (a b : Value) : Value := if ToBoolean a then a else b.

(** [v === false] *)
Definition is_false (v : Value) : bool :=
  match v with Bool false => true | _ => false end.

(** [v === s] for a string literal [s] *)
Definition is_string (v : Value) (s : string) : bool :=
  match v with String s' => String.eqb s' s | _ => false end.

(** [typeof v === 'boolean'] *)
Definition is_boolean (v : Value) : bool :=
  match v with Bool _ => true | _ => false end.

(** [!o] for [o] an object reference or [undefined]: objects are truthy. *)
Definition not_ref {A : Type} (o : option A) : bool :=
  match o with Some _ => false | None => true end.

(** A [string | undefined] read from a slot that may be missing. *)
Definition of_option (o : option string) : Value :=
  match o with Some s => String s | None => Undefined end.

(** [s.has(x)] on a [Set<string>] *)
Definition has (s : gset string) (x : string) : bool := bool_decide (x ∈ s).

End JS.

(** ** Array methods used by the audits, on the contents of the array *)

Module Array.

Section methods.
Context {A : Type}.

(** [a.find(p)]: the first element satisfying [p], if any. *)
Definition find (p : A → bool) (a : list A) : option A := List.find p a.

(** [a.filter(p)] *)
Definition filter (p : A → bool) (a : list A) : list A := List.filter p a.

(** SortCompare: what [sort] makes of the comparator's result, a NaN
    being read as +0. *)
Definition SortCompare (comparefn : A → A → JS.Num) (x y : A) : Q :=
  match comparefn x y with JS.NaN => 0 | JS.Finite v => v end.

(** Stable insertion of [x], which stood before every element of [a]:
    [x] passes the elements [y] with [comparefn(x, y) > 0] and stops
    before the first one with [comparefn(x, y) <= 0]. *)
Fixpoint insert (comparefn : A → A → JS.Num) (x : A) (a : list A) : list A :=
  match a with
  | [] => [x]
  | y :: a' =>
      if Qle_bool (SortCompare comparefn x y) 0 then x :: y :: a'
      else y :: insert comparefn x a'
  end.

(** The contents of [a] after [a.sort(comparefn)]: the stable sorted order
    when [comparefn] is consistent on the elements of [a]; when it is not,
    the order is the engine's choice, and this is one such order. *)
Fixpoint sort (comparefn : A → A → JS.Num) (a : list A) : list A :=
  match a with
  | [] => []
  | x :: a' => insert comparefn x (sort comparefn a')
  end.

(** [x] may stand before [y] in an array sorted by [comparefn]. *)
Definition before (comparefn : A → A → JS.Num) (x y : A) : Prop :=
  (SortCompare comparefn x y <= 0)%Q.

(** [a.slice(0, n)] *)
Definition slice0 (n : nat) (a : list A) : list A := take n a.

(** [a[0]] *)
Definition first (a : list A) : option A := head a.

End methods.

(** [a.map(f)] *)
Definition map {A B : Type} (f : A → B) (a : list A) : list B := f <$> a.

End Array.

(** ** Data model (LH.Artifacts) *)

Module LH.

Record TraceEvent := { name : string }.

Record TaskGroup := { label : string }.

(** A node of the task forest.  [parent] is the enclosing task, absent for
    a top-level task; being an inductive type, the links cannot cycle. *)
Inductive TaskNode := mkTaskNode {
  event : TraceEvent;
  startTime : Q;
  duration : JS.Num;
  selfTime : Q;
  parent : option TaskNode;
  unbounded : JS.Value;
  attributableURLs : list string;
  group : TaskGroup
}.

Inductive ResourceType := Document | Script | Stylesheet | Image | Other.

Record NetworkRequest := { url : string; resourceType : ResourceType }.

(** The duration of the task is a number, not NaN. *)
Definition timed (t : TaskNode) : Prop := JS.is_NaN (duration t) = false.

(** [resourceType === NetworkRequest.TYPES.Script] *)
Definition is_Script (r : ResourceType) : bool :=
  match r with Script => true | _ => false end.

End LH.

Import LH.

(** ** ICU plural messages (lib/i18n)

    Modelled from the spec: [i18n.createMessageInstanceIdFn] and the ICU
    formatter behind it are not part of the sources at hand.  The spec
    (sections 4.3 and 6) and the audit's tests fix what the message of
    [UIStrings.displayValue] renders to: the [=n] clause that matches the
    count exactly when there is one, else the [other] clause, with [#]
    replaced by the count in decimal. *)

Module Icu.

Inductive Piece := Text (s : string) | Pound.

Record Plural := {
  argument : string;
  exact : list (nat * list Piece);
  other : list Piece
}.

(** [#] is written in plain decimal, which is what the formatter prints
    for a count below 1000; the grouping of digits it applies from 1000 on
    is not modelled. *)
Definition render_piece (n : nat) (p : Piece) : string :=
  match p with Text s => s | Pound => pretty n end.

Definition render (n : nat) (ps : list Piece) : string :=
  foldr (λ p acc, render_piece n p +:+ acc) "" ps.

Definition select (m : Plural) (n : nat) : list Piece :=
  match List.find (λ c, Nat.eqb (fst c) n) (exact m) with
  | Some c => snd c
  | None => other m
  end.

Definition format (m : Plural) (n : nat) : string := render n (select m n).

End Icu.

(** ** audit.js: the table handed to the report

    Modelled from the spec: [Audit.makeTableDetails] lives in audit.js,
    which is not part of the sources at hand; the tests read the rows back
    as [details.items], in the order given. *)

Module Audit.

Record Heading := {
  key : string;
  itemType : string;
  granularity : option nat
}.

(** [Items] is the array of rows: a list of rows where arrays are values,
    a reference where the heap is modelled. *)
Record Table (Items : Type) := {
  headings : list Heading;
  items : Items
}.
Arguments headings {Items} _.
Arguments items {Items} _.

Definition makeTableDetails {Items : Type}
    (headings : list Heading) (results : Items) : Table Items :=
  {| headings := headings; items := results |}.

Record Product (Items : Type) := {
  score : Q;
  details : Table Items;
  displayValue : option string
}.
Arguments score {Items} _.
Arguments details {Items} _.
Arguments displayValue {Items} _.

End Audit.

(** ** bootup-time.js, as far as long-tasks.js calls it

    bootup-time.js is not part of the sources at hand.  The audit is
    modelled over any implementation of the two static methods it calls. *)

Class BootupTime := {
  BootupTime_getJavaScriptURLs : list NetworkRequest → gset string;
  BootupTime_getAttributableURLForTask : TaskNode → gset string → JS.Value
}.

(** ** long-tasks.js, lines 1-91: the audit *)

Module LongTasks.

Module UIStrings.

(** [{itemCount, plural, =1 {1 long task found} other {# long tasks found}}] *)
Definition displayValue : Icu.Plural :=
  {| Icu.argument := "itemCount";
     Icu.exact := [(1%nat, [Icu.Text "1 long task found"])];
     Icu.other := [Icu.Pound; Icu.Text " long tasks found"] |}.

End UIStrings.

Record Item := {
  url : JS.Value;
  group : string;
  start : Q;
  self : Q;
  duration : JS.Num
}.

(** [t => t.duration >= 50 && !t.unbounded && !t.parent] *)
Definition is_longtask (t : TaskNode) : bool :=
  JS.ge (LH.duration t) (JS.Finite 50)
  && JS.not (LH.unbounded t)
  && JS.not_ref (LH.parent t).

(** [(a, b) => b.duration - a.duration] *)
Definition by_duration_desc (a b : TaskNode) : JS.Num :=
  JS.sub (LH.duration b) (LH.duration a).

(** [[...tasks].filter(...).sort(...).slice(0, 20)] *)
Definition longtasks (tasks : list TaskNode) : list TaskNode :=
  Array.slice0 20
    (Array.sort by_duration_desc
       (Array.filter is_longtask tasks)).

Definition headings : list Audit.Heading :=
  [ {| Audit.key := "url"; Audit.itemType := "url";
       Audit.granularity := None |};
    {| Audit.key := "start"; Audit.itemType := "ms";
       Audit.granularity := Some 10%nat |};
    {| Audit.key := "duration"; Audit.itemType := "ms";
       Audit.granularity := Some 10%nat |} ].

Section audit.
Context `{BootupTime}.

(** The callback of [longtasks.map]. *)
Definition toItem (jsURLs : gset string) (task : TaskNode) : Item :=
  {| url := BootupTime_getAttributableURLForTask task jsURLs;
     group := LH.label (LH.group task);
     start := LH.startTime task;
     self := LH.selfTime task;
     duration := LH.duration task |}.

Definition results (tasks : list TaskNode)
    (networkRecords : list NetworkRequest) : list Item :=
  let jsURLs := BootupTime_getJavaScriptURLs networkRecords in
  Array.map (toItem jsURLs) (longtasks tasks).

(** [audit], once the two computed artifacts ([MainThreadTasks],
    [NetworkRecords]) have resolved to [tasks] and [networkRecords]. *)
Definition audit (tasks : list TaskNode)
    (networkRecords : list NetworkRequest) : Audit.Product (list Item) :=
  let results := results tasks networkRecords in
  let tableDetails := Audit.makeTableDetails headings results in
  let displayValue :=
    if (0 <? length results)%nat
    then Some (Icu.format UIStrings.displayValue (length results))
    else None in
  {| Audit.score := 1;
     Audit.details := tableDetails;
     Audit.displayValue := displayValue |}.

End audit.

End LongTasks.

(** ** long-tasks.js, lines 92-216: the earlier revision of the audit,
    which still carries the two static methods that later moved to
    bootup-time.js *)

Module LongTasksV1.

(** These trace events, when not triggered by a script inside a particular
    task, are just general Chrome overhead. *)
Definition BROWSER_TASK_NAMES_SET : gset string :=
  {[ "CpuProfiler::StartProfiling" ]}.

(** These trace events, when not triggered by a script inside a particular
    task, are GC Chrome overhead. *)
Definition BROWSER_GC_TASK_NAMES_SET : gset string :=
  {[ "V8.GCCompactor"; "MajorGC"; "MinorGC" ]}.

(** The loop body of [getJavaScriptURLs]: [urls.add(record.url)] for a
    record whose type is [Script]. *)
Definition add_if_script (urls : gset string) (record : NetworkRequest)
    : gset string :=
  if is_Script (LH.resourceType record) then {[ LH.url record ]} ∪ urls
  else urls.

Definition getJavaScriptURLs (records : list NetworkRequest) : gset string :=
  foldl add_if_script ∅ records.

Definition getAttributableURLForTask (task : TaskNode) (jsURLs : gset string)
    : JS.Value :=
  let jsURL :=
    JS.of_option (Array.find (λ url, JS.has jsURLs url) (attributableURLs task)) in
  let fallbackURL := JS.of_option (Array.first (attributableURLs task)) in
  let attributableURL := JS.or jsURL fallbackURL in
  if JS.not attributableURL || JS.is_string attributableURL "about:blank"
  then
    if JS.has BROWSER_TASK_NAMES_SET (name (event task))
    then JS.String "Browser"
    else if JS.has BROWSER_GC_TASK_NAMES_SET (name (event task))
         then JS.String "Browser GC"
    else JS.String "Unattributable"
  else attributableURL.

(** [t => t.duration >= 50 && t.unbounded === false && !t.parent] *)
Definition is_longtask (t : TaskNode) : bool :=
  JS.ge (LH.duration t) (JS.Finite 50)
  && JS.is_false (LH.unbounded t)
  && JS.not_ref (LH.parent t).

(** [[...tasks].sort(...).filter(...).slice(0, 20)] *)
Definition longtasks (tasks : list TaskNode) : list TaskNode :=
  Array.slice0 20
    (Array.filter is_longtask
       (Array.sort LongTasks.by_duration_desc tasks)).

Definition toItem (jsURLs : gset string) (t : TaskNode) : LongTasks.Item :=
  {| LongTasks.url := getAttributableURLForTask t jsURLs;
     LongTasks.group := LH.label (LH.group t);
     LongTasks.start := LH.startTime t;
     LongTasks.self := LH.selfTime t;
     LongTasks.duration := LH.duration t |}.

Definition headings : list Audit.Heading :=
  [ {| Audit.key := "url"; Audit.itemType := "url";
       Audit.granularity := Some 1%nat |};
    {| Audit.key := "start"; Audit.itemType := "ms";
       Audit.granularity := Some 1%nat |};
    {| Audit.key := "duration"; Audit.itemType := "ms";
       Audit.granularity := Some 1%nat |} ].

Definition audit (tasks : list TaskNode) (networkRecords : list NetworkRequest)
    : Audit.Product (list LongTasks.Item) :=
  let jsURLs := getJavaScriptURLs networkRecords in
  let results := Array.map (toItem jsURLs) (longtasks tasks) in
  {| Audit.score := 1;
     Audit.details := Audit.makeTableDetails headings results;
     Audit.displayValue := None |}.

End LongTasksV1.

(** ** The main-thread-tasks audit (layout-shift-elements.js, lines 78-192):
    its copy of the attribution method and its selection *)

Module MainThreadTasks.

Definition BROWSER_TASK_NAMES_SET : gset string :=
  {[ "CpuProfiler::StartProfiling" ]}.

Definition BROWSER_GC_TASK_NAMES_SET : gset string :=
  {[ "V8.GCCompactor"; "MajorGC"; "MinorGC" ]}.

Definition getAttributableURLForTask (task : TaskNode) (jsURLs : gset string)
    : JS.Value :=
  let jsURL :=
    JS.of_option (Array.find (λ url, JS.has jsURLs url) (attributableURLs task)) in
  let fallbackURL := JS.of_option (Array.first (attributableURLs task)) in
  let attributableURL := JS.or jsURL fallbackURL in
  if JS.not attributableURL || JS.is_string attributableURL "about:blank"
  then
    if JS.has BROWSER_TASK_NAMES_SET (name (event task))
    then JS.String "Browser"
    else if JS.has BROWSER_GC_TASK_NAMES_SET (name (event task))
         then JS.String "Browser GC"
    else JS.String "Unattributable"
  else attributableURL.

(** [[...tasks].sort(...).filter(...).slice(0,20)] *)
Definition longtasks (tasks : list TaskNode) : list TaskNode :=
  Array.slice0 20
    (Array.filter
       (λ t, JS.ge (LH.duration t) (JS.Finite 50)
             && JS.is_false (LH.unbounded t)
             && JS.not_ref (LH.parent t))
       (Array.sort (λ a b, JS.sub (LH.duration b) (LH.duration a)) tasks)).

(** The loop of [getJavaScriptURLs] (line 118), as in long-tasks.js. *)
Definition getJavaScriptURLs (records : list NetworkRequest) : gset string :=
  foldl (λ urls record,
           if is_Script (LH.resourceType record)
           then {[ LH.url record ]} ∪ urls else urls) ∅ records.

End MainThreadTasks.

(** The two methods as long-tasks.js itself carried them, as an
    implementation of what the audit calls in bootup-time.js. *)
#[export] Instance BootupTime_src : BootupTime := {|
  BootupTime_getJavaScriptURLs := LongTasksV1.getJavaScriptURLs;
  BootupTime_getAttributableURLForTask := LongTasksV1.getAttributableURLForTask
|}.

(** ** The heap the audit runs in

    Arrays and sets are objects: [sort] writes into its receiver, the other
    array methods allocate their result, [Set.add] writes into the set.
    Task records are values here because no statement of the audits
    assigns to a field of a task. *)

Module Heap.

Definition ref := positive.

Inductive Obj :=
| Tasks (a : list TaskNode)
| Records (a : list NetworkRequest)
| Items (a : list LongTasks.Item)
| Urls (s : gset string).

(** A computation on the heap; [None] is a thrown TypeError (a reference
    that holds no object of the expected class). *)
Definition M (A : Type) : Type := gmap ref Obj → option (A * gmap ref Obj).

#[export] Instance M_ret : MRet M := λ A x h, Some (x, h).

#[export] Instance M_bind : MBind M := λ A B k c h,
  match c h with Some (x, h') => k x h' | None => None end.

Definition alloc (o : Obj) : M ref :=
  λ h, let r := fresh (dom h) in Some (r, <[r := o]> h).

Definition write (r : ref) (o : Obj) : M unit :=
  λ h, Some (tt, <[r := o]> h).

Definition read_tasks (r : ref) : M (list TaskNode) :=
  λ h, match h !! r with Some (Tasks a) => Some (a, h) | _ => None end.

Definition read_records (r : ref) : M (list NetworkRequest) :=
  λ h, match h !! r with Some (Records a) => Some (a, h) | _ => None end.

Definition read_urls (r : ref) : M (gset string) :=
  λ h, match h !! r with Some (Urls s) => Some (s, h) | _ => None end.

(** [for (const x of a) body(x)] *)
Fixpoint for_of {A : Type} (body : A → M unit) (a : list A) : M unit :=
  match a with
  | [] => mret tt
  | x :: a' => _ ← body x; for_of body a'
  end.

(** The callbacks of [map], run left to right. *)
Fixpoint each {A B : Type} (f : A → M B) (a : list A) : M (list B) :=
  match a with
  | [] => mret []
  | x :: a' => y ← f x; ys ← each f a'; mret (y :: ys)
  end.

(** [[...a]] *)
Definition spread (a : ref) : M ref :=
  xs ← read_tasks a; alloc (Tasks xs).

(** [a.filter(p)] *)
Definition filter (p : TaskNode → bool) (a : ref) : M ref :=
  xs ← read_tasks a; alloc (Tasks (Array.filter p xs)).

(** [a.sort(comparefn)]: sorts [a] in place and returns [a]. *)
Definition sort (comparefn : TaskNode → TaskNode → JS.Num) (a : ref)
    : M ref :=
  xs ← read_tasks a;
  _ ← write a (Tasks (Array.sort comparefn xs));
  mret a.

(** [a.slice(0, n)] *)
Definition slice0 (n : nat) (a : ref) : M ref :=
  xs ← read_tasks a; alloc (Tasks (Array.slice0 n xs)).

(** [a.map(f)] for a callback that builds a row *)
Definition map (f : TaskNode → M LongTasks.Item) (a : ref) : M ref :=
  xs ← read_tasks a; ys ← each f xs; alloc (Items ys).

(** [a.length] *)
Definition length_items (a : ref) : M nat :=
  λ h, match h !! a with Some (Items ys) => Some (length ys, h) | _ => None end.

(** [getJavaScriptURLs] (long-tasks.js line 143) on the heap *)
Definition getJavaScriptURLs (records : ref) : M ref :=
  urls ← alloc (Urls ∅);
  rs ← read_records records;
  _ ← for_of (λ record,
        if is_Script (LH.resourceType record)
        then s ← read_urls urls; write urls (Urls ({[ LH.url record ]} ∪ s))
        else mret tt) rs;
  mret urls.

(** [getAttributableURLForTask] (long-tasks.js line 160) on the heap: the
    set is only asked [has], the task only read. *)
Definition getAttributableURLForTask (task : TaskNode) (jsURLs : ref)
    : M JS.Value :=
  s ← read_urls jsURLs;
  mret (LongTasksV1.getAttributableURLForTask task s).

(** [audit] (long-tasks.js line 48) on the heap; [tasks] and
    [networkRecords] are the arrays the two computed artifacts returned,
    and the two static methods are those of line 143 and line 160. *)
Definition audit (tasks networkRecords : ref) : M (Audit.Product ref) :=
  jsURLs ← getJavaScriptURLs networkRecords;
  copy ← spread tasks;
  filtered ← filter LongTasks.is_longtask copy;
  sorted ← sort LongTasks.by_duration_desc filtered;
  longtasks ← slice0 20 sorted;
  results ← map (λ task,
      url ← getAttributableURLForTask task jsURLs;
      mret {| LongTasks.url := url;
              LongTasks.group := LH.label (LH.group task);
              LongTasks.start := LH.startTime task;
              LongTasks.self := LH.selfTime task;
              LongTasks.duration := LH.duration task |}) longtasks;
  let tableDetails := Audit.makeTableDetails LongTasks.headings results in
  n ← length_items results;
  let displayValue :=
    if (0 <? n)%nat then Some (Icu.format LongTasks.UIStrings.displayValue n)
    else None in
  mret {| Audit.score := 1;
          Audit.details := tableDetails;
          Audit.displayValue := displayValue |}.

(** [c] run in [h] returns normally, and [post] holds of its result and of
    the heap it leaves. *)
Definition returns {A : Type} (c : M A) (h : gmap ref Obj)
    (post : A → gmap ref Obj → Prop) : Prop :=
  ∃ x h', c h = Some (x, h') ∧ post x h'.

End Heap.

(** ** Attribution, in the words of the specification (section 4.2) *)

Module Attributor.

(** Steps 3a to 3c: the label for a task without a usable URL. *)
Definition classify (eventName : string) : string :=
  if bool_decide (eventName ∈ LongTasksV1.BROWSER_TASK_NAMES_SET)
  then "Browser"
  else if bool_decide (eventName ∈ LongTasksV1.BROWSER_GC_TASK_NAMES_SET)
       then "Browser GC"
  else "Unattributable".

(** The precedence as the specification words it: the first known script
    URL, otherwise the first URL; the labels when there is no candidate or
    the candidate is [about:blank]. *)
Definition as_stated (task : TaskNode) (known : gset string) : string :=
  let candidate :=
    match List.find (λ u, bool_decide (u ∈ known)) (attributableURLs task) with
    | Some u => Some u
    | None => head (attributableURLs task)
    end in
  match candidate with
  | None => classify (name (event task))
  | Some u =>
      if String.eqb u "about:blank" then classify (name (event task)) else u
  end.

(** The same with the empty string counted as no URL at both steps. *)
Definition as_amended (task : TaskNode) (known : gset string) : string :=
  let candidate :=
    match List.find (λ u, bool_decide (u ∈ known)) (attributableURLs task) with
    | Some u => if String.eqb u "" then head (attributableURLs task) else Some u
    | None => head (attributableURLs task)
    end in
  match candidate with
  | None => classify (name (event task))
  | Some u =>
      if String.eqb u "" || String.eqb u "about:blank"
      then classify (name (event task)) else u
  end.

End Attributor.

(** ** Sample inputs *)

Definition sample_task (eventName : string) (start dur : Q)
    (urls : list string) : TaskNode :=
  mkTaskNode {| name := eventName |} start (JS.Finite dur) dur None
    (JS.Bool false) urls
    {| label := "scriptEvaluation" |}.

Definition long_script_task : TaskNode :=
  sample_task "RunTask" 2000 100 ["https://pwa.rocks/"].

(** A task nested in [long_script_task]. *)
Definition child_task : TaskNode :=
  mkTaskNode {| name := "FunctionCall" |} 2010 (JS.Finite 80) 80
    (Some long_script_task)
    (JS.Bool false) ["https://pwa.rocks/"] {| label := "scriptEvaluation" |}.

(** A task cut by the end of the trace. *)
Definition unbounded_task : TaskNode :=
  mkTaskNode {| name := "RunTask" |} 3500 (JS.Finite 900) 900 None
    (JS.Bool true) []
    {| label := "other" |}.

(** The four top-level tasks of the test "should filter out tasks with
    duration less than 50 ms", with a nested task and an unbounded one. *)
Definition sample_tasks : list TaskNode :=
  [ sample_task "RunTask" 1000 30 [];
    long_script_task;
    child_task;
    sample_task "RunTask" 3000 25 [];
    unbounded_task;
    sample_task "MajorGC" 4000 50 [] ].

Definition sample_records : list NetworkRequest :=
  [ {| LH.url := "https://pwa.rocks/"; resourceType := Document |};
    {| LH.url := "https://pwa.rocks/script.js"; resourceType := Script |} ].

(** Twenty-one top-level bounded tasks of durations 60, 61, ..., 80. *)
Definition many_tasks : list TaskNode :=
  (λ n : nat, sample_task "RunTask" (inject_Z (Z.of_nat n))
                (inject_Z (Z.of_nat (60 + n))) []) <$> seq 0 21.

(** A task whose only candidate URL is the empty string. *)
Definition task_with_empty_url : TaskNode :=
  mkTaskNode {| name := "RunTask" |} 1000 (JS.Finite 200) 200 None
    (JS.Bool false) [""]
    {| label := "other" |}.

(** A task whose [unbounded] field is missing. *)
Definition task_without_flag : TaskNode :=
  mkTaskNode {| name := "RunTask" |} 0 (JS.Finite 100) 100 None JS.Undefined []
    {| label := "other" |}.

Definition sample_heap : gmap Heap.ref Heap.Obj :=
  <[1%positive := Heap.Tasks sample_tasks]>
    (<[2%positive := Heap.Records sample_records]> ∅).

Definition other_heap : gmap Heap.ref Heap.Obj :=
  <[7%positive := Heap.Records sample_records]>
    (<[5%positive := Heap.Tasks sample_tasks]>
       (<[1%positive := Heap.Urls {[ "https://pwa.rocks/script.js" ]}]> ∅)).

(** ** layout-shift-elements.js, lines 1-77: the audit of the elements that
    shifted *)

Module LayoutShiftElements.

Module UIStrings.

(** [{nodeCount, plural, =0 {No elements found} =1 {1 element found}
    other {# elements found}}] *)
Definition displayValue : Icu.Plural :=
  {| Icu.argument := "nodeCount";
     Icu.exact := [ (0%nat, [Icu.Text "No elements found"]);
                    (1%nat, [Icu.Text "1 element found"]) ];
     Icu.other := [Icu.Pound; Icu.Text " elements found"] |}.

End UIStrings.

(** An entry of [artifacts.TraceElements]; the fields are only compared
    with [===] or copied, so they are kept as values. *)
Record TraceElement := {
  metricName : JS.Value;
  devtoolsNodePath : JS.Value;
  selector : JS.Value;
  nodeLabel : JS.Value;
  snippet : JS.Value
}.

Module Details.

Record NodeValue := {
  type : string;
  path : JS.Value;
  selector : JS.Value;
  nodeLabel : JS.Value;
  snippet : JS.Value
}.

End Details.

Record Item := { node : Details.NodeValue }.

(** [element => element.metricName === 'cumulative-layout-shift'] *)
Definition is_cls (element : TraceElement) : bool :=
  JS.is_string (metricName element) "cumulative-layout-shift".

(** The callback of [clsElements.map]. *)
Definition toItem (element : TraceElement) : Item :=
  {| node := {| Details.type := "node";
                Details.path := devtoolsNodePath element;
                Details.selector := selector element;
                Details.nodeLabel := nodeLabel element;
                Details.snippet := snippet element |} |}.

Definition headings : list Audit.Heading :=
  [ {| Audit.key := "node"; Audit.itemType := "node";
       Audit.granularity := None |} ].

Definition audit (TraceElements : list TraceElement)
    : Audit.Product (list Item) :=
  let clsElements := Array.filter is_cls TraceElements in
  let clsElementData := Array.map toItem clsElements in
  let details := Audit.makeTableDetails headings clsElementData in
  let displayValue :=
    Icu.format UIStrings.displayValue (length clsElementData) in
  {| Audit.score := 1;
     Audit.displayValue := Some displayValue;
     Audit.details := details |}.

End LayoutShiftElements.

(** ** The earlier revision of the audit (long-tasks.js line 180) on the
    heap: here [sort] is applied to the spread copy itself. *)

Module HeapV1.

Import Heap.

Definition audit (tasks networkRecords : ref) : M (Audit.Product ref) :=
  jsURLs ← getJavaScriptURLs networkRecords;
  copy ← spread tasks;
  sorted ← sort LongTasks.by_duration_desc copy;
  filtered ← filter LongTasksV1.is_longtask sorted;
  longtasks ← slice0 20 filtered;
  results ← map (λ t,
      url ← getAttributableURLForTask t jsURLs;
      mret {| LongTasks.url := url;
              LongTasks.group := LH.label (LH.group t);
              LongTasks.start := LH.startTime t;
              LongTasks.self := LH.selfTime t;
              LongTasks.duration := LH.duration t |}) longtasks;
  let tableDetails := Audit.makeTableDetails LongTasksV1.headings results in
  mret {| Audit.score := 1;
          Audit.details := tableDetails;
          Audit.displayValue := None |}.

End HeapV1.

(** ** Further sample inputs *)

(** Three tasks of one duration and a longer one, as they follow each
    other in a trace. *)
Definition tied_tasks : list TaskNode :=
  [ sample_task "RunTask" 1000 70 ["https://pwa.rocks/a.js"];
    sample_task "RunTask" 2000 90 [];
    sample_task "RunTask" 3000 70 ["https://pwa.rocks/b.js"];
    sample_task "RunTask" 4000 70 [] ].

(** A task whose first candidate URL is the placeholder page. *)
Definition task_on_blank_page : TaskNode :=
  mkTaskNode {| name := "MinorGC" |} 1000 (JS.Finite 200) 200 None
    (JS.Bool false)
    ["about:blank"; "https://pwa.rocks/"] {| label := "other" |}.

(** A task that ran the script of [sample_records] from an inline handler
    of the page. *)
Definition task_in_script : TaskNode :=
  sample_task "FunctionCall" 1000 200
    ["https://pwa.rocks/"; "https://pwa.rocks/script.js"].

Definition sample_elements : list LayoutShiftElements.TraceElement :=
  [ {| LayoutShiftElements.metricName := JS.String "largest-contentful-paint";
       LayoutShiftElements.devtoolsNodePath := JS.String "1,HTML,1,BODY,0,IMG";
       LayoutShiftElements.selector := JS.String "body > img";
       LayoutShiftElements.nodeLabel := JS.String "img";
       LayoutShiftElements.snippet := JS.String "<img>" |};
    {| LayoutShiftElements.metricName := JS.String "cumulative-layout-shift";
       LayoutShiftElements.devtoolsNodePath := JS.String "1,HTML,1,BODY,1,DIV";
       LayoutShiftElements.selector := JS.String "body > div";
       LayoutShiftElements.nodeLabel := JS.String "div";
       LayoutShiftElements.snippet := JS.Undefined |};
    {| LayoutShiftElements.metricName := JS.String "cumulative-layout-shift";
       LayoutShiftElements.devtoolsNodePath := JS.String "1,HTML,1,BODY,2,P";
       LayoutShiftElements.selector := JS.String "body > p";
       LayoutShiftElements.nodeLabel := JS.String "p";
       LayoutShiftElements.snippet := JS.String "<p>" |} ].

(** A task whose duration could not be computed. *)
Definition task_without_duration : TaskNode :=
  mkTaskNode {| name := "RunTask" |} 2000 JS.NaN 0 None (JS.Bool false) []
    {| label := "other" |}.

(** Tasks of durations 87, NaN and 93, all bounded and top-level. *)
Definition tasks_with_NaN : list TaskNode :=
  [ sample_task "RunTask" 1000 87 [];
    task_without_duration;
    sample_task "RunTask" 3000 93 [] ].

(** * Properties *)

(** ** The stable sort *)

Section sort_facts.
Context {A : Type} (comparefn : A → A → JS.Num).

Lemma insert_perm x a : Array.insert comparefn x a ≡ₚ x :: a.
Proof.
  induction a as [|y a IH]; simpl; [done|].
  destruct (Qle_bool _ _); [done|].
  rewrite IH. apply Permutation_swap.
Qed.

Lemma sort_perm a : Array.sort comparefn a ≡ₚ a.
Proof.
  induction a as [|x a IH]; simpl; [done|].
  by rewrite insert_perm, IH.
Qed.

Lemma insert_front x a :
  match a with [] => True | y :: _ => Array.before comparefn x y end →
  Array.insert comparefn x a = x :: a.
Proof.
  destruct a as [|y a]; simpl; [done|].
  intros Hxy. apply Qle_bool_iff in Hxy. by rewrite Hxy.
Qed.

(** An array whose elements all tie is left as it is. *)
Lemma sort_tied a :
  (∀ x y, x ∈ a → y ∈ a → Array.before comparefn x y) →
  Array.sort comparefn a = a.
Proof.
  induction a as [|x a IH]; intros Htie; simpl; [done|].
  rewrite IH by (intros; apply Htie; by right).
  apply insert_front. destruct a as [|y a]; [done|].
  apply Htie; [by left|by right; left].
Qed.

(** A comparator is consistent on the elements that satisfy [sound] when
    the order it induces on them is total and transitive. *)
Variable sound : A → Prop.
Hypothesis before_total :
  ∀ x y, sound x → sound y →
         Array.before comparefn x y ∨ Array.before comparefn y x.
Hypothesis before_trans :
  ∀ x y z, sound x → sound y → sound z →
           Array.before comparefn x y → Array.before comparefn y z →
           Array.before comparefn x z.

Lemma sort_sound a : Forall sound a → Forall sound (Array.sort comparefn a).
Proof.
  rewrite !Forall_forall. intros Hall x Hx. rewrite sort_perm in Hx. auto.
Qed.

Lemma insert_sorted x a :
  sound x → Forall sound a →
  StronglySorted (Array.before comparefn) a →
  StronglySorted (Array.before comparefn) (Array.insert comparefn x a).
Proof.
  intros Hx Hall Hs. induction Hs as [|y a Hs IH Hy]; simpl.
  - repeat constructor.
  - apply Forall_cons in Hall as [Hsy Hall].
    destruct (Qle_bool (Array.SortCompare comparefn x y) 0) eqn:E.
    + apply Qle_bool_iff in E.
      constructor; [by constructor|].
      constructor; [done|].
      rewrite Forall_forall in Hy, Hall |- *. intros z Hz.
      eapply (before_trans x y z); auto.
    + assert (Array.before comparefn y x) as Hyx.
      { destruct (before_total x y Hx Hsy) as [Hxy|]; [|done].
        apply Qle_bool_iff in Hxy. congruence. }
      constructor; [by apply IH|].
      rewrite (insert_perm x a). by constructor.
Qed.

Lemma sort_sorted a :
  Forall sound a →
  StronglySorted (Array.before comparefn) (Array.sort comparefn a).
Proof.
  induction 1 as [|x a Hx Hall IH]; simpl; [constructor|].
  apply insert_sorted; [done|by apply sort_sound|done].
Qed.

(** Filtering a sorted array and inserting commute: the insertion is
    stable, so dropping elements does not change where [x] lands among
    the others. *)
Lemma filter_insert (p : A → bool) x a :
  sound x → Forall sound a →
  StronglySorted (Array.before comparefn) a →
  List.filter p (Array.insert comparefn x a) =
  if p x then Array.insert comparefn x (List.filter p a) else List.filter p a.
Proof.
  intros Hsx Hall Hs. induction Hs as [|y a Hs IH Hy]; simpl.
  - by destruct (p x).
  - apply Forall_cons in Hall as [Hsy Hall].
    destruct (Qle_bool (Array.SortCompare comparefn x y) 0) eqn:E; simpl.
    + destruct (p x) eqn:Hx; [|done].
      destruct (p y) eqn:Hpy; simpl; [by rewrite E|].
      symmetry. apply insert_front.
      apply Qle_bool_iff in E.
      destruct (List.filter p a) as [|z l] eqn:Hf; [done|].
      assert (In z (List.filter p a)) as Hz by (rewrite Hf; by left).
      apply filter_In in Hz as [Hz%list_elem_of_In _].
      rewrite Forall_forall in Hy, Hall.
      eapply (before_trans x y z); auto.
    + rewrite IH by done. destruct (p x), (p y); simpl; by rewrite ?E.
Qed.

Lemma filter_sort (p : A → bool) a :
  Forall sound a →
  List.filter p (Array.sort comparefn a)
  = Array.sort comparefn (List.filter p a).
Proof.
  induction 1 as [|x a Hx Hall IH]; simpl; [done|].
  rewrite filter_insert by auto using sort_sound, sort_sorted.
  rewrite IH. by destruct (p x).
Qed.

(** Stability: the elements of a class of ties come out in the order in
    which they went in. *)
Lemma sort_stable (p : A → bool) a :
  Forall sound a →
  (∀ x y, p x = true → p y = true → Array.before comparefn x y) →
  List.filter p (Array.sort comparefn a) = List.filter p a.
Proof.
  intros Hall Htie. rewrite filter_sort by done. apply sort_tied.
  intros x y Hx%list_elem_of_In%filter_In Hy%list_elem_of_In%filter_In.
  apply Htie; tauto.
Qed.

End sort_facts.

(** ** The comparator and the filter of the audits *)

Lemma by_duration_before a b :
  LH.timed a → LH.timed b →
  Array.before LongTasks.by_duration_desc a b
  ↔ JS.le (LH.duration b) (LH.duration a).
Proof.
  unfold LH.timed, Array.before, Array.SortCompare, LongTasks.by_duration_desc.
  destruct (LH.duration a), (LH.duration b); simpl; try done.
  intros _ _. split; intros; lra.
Qed.

Lemma by_duration_total a b :
  LH.timed a → LH.timed b →
  Array.before LongTasks.by_duration_desc a b
  ∨ Array.before LongTasks.by_duration_desc b a.
Proof.
  intros Ha Hb. rewrite !by_duration_before by done.
  unfold LH.timed in *.
  destruct (LH.duration a) as [|x], (LH.duration b) as [|y]; try done.
  simpl. destruct (Qlt_le_dec x y); [right|left]; lra.
Qed.

Lemma by_duration_trans a b c :
  LH.timed a → LH.timed b → LH.timed c →
  Array.before LongTasks.by_duration_desc a b →
  Array.before LongTasks.by_duration_desc b c →
  Array.before LongTasks.by_duration_desc a c.
Proof.
  intros Ha Hb Hc. rewrite !by_duration_before by done.
  unfold LH.timed in *.
  destruct (LH.duration a), (LH.duration b), (LH.duration c); try done.
  simpl. intros; lra.
Qed.

Lemma ge_threshold d :
  JS.ge d (JS.Finite 50) = true ↔ JS.le (JS.Finite 50) d.
Proof.
  destruct d as [|q]; simpl; [by split|]. apply Qle_bool_iff.
Qed.

Lemma is_longtask_spec t :
  LongTasks.is_longtask t = true ↔
  LH.parent t = None ∧ JS.ToBoolean (LH.unbounded t) = false
  ∧ JS.le (JS.Finite 50) (LH.duration t).
Proof.
  unfold LongTasks.is_longtask, JS.not, JS.not_ref.
  rewrite !andb_true_iff, ge_threshold, negb_true_iff.
  destruct (LH.parent t); intuition congruence.
Qed.

Lemma longtask_timed t : LongTasks.is_longtask t = true → LH.timed t.
Proof.
  intros (_ & _ & Hd)%is_longtask_spec. unfold LH.timed.
  by destruct (LH.duration t).
Qed.

Lemma qualifying_timed tasks :
  Forall LH.timed (Array.filter LongTasks.is_longtask tasks).
Proof.
  rewrite Forall_forall. intros t Ht.
  apply list_elem_of_In, filter_In in Ht as [_ Ht]. by apply longtask_timed.
Qed.

Lemma is_longtask_boolean t :
  JS.is_boolean (LH.unbounded t) = true →
  LongTasksV1.is_longtask t = LongTasks.is_longtask t.
Proof.
  unfold LongTasksV1.is_longtask, LongTasks.is_longtask.
  by destruct (LH.unbounded t) as [| |[]| |].
Qed.

Lemma longtasks_elem t tasks :
  t ∈ LongTasks.longtasks tasks → t ∈ tasks ∧ LongTasks.is_longtask t = true.
Proof.
  unfold LongTasks.longtasks, Array.slice0, Array.filter. intros Ht.
  apply elem_of_take in Ht as (i & Ht & _).
  apply list_elem_of_lookup_2 in Ht.
  rewrite sort_perm in Ht.
  apply list_elem_of_In, filter_In in Ht as [Ht ?].
  by apply list_elem_of_In in Ht.
Qed.

Lemma longtasks_sorted tasks :
  StronglySorted (Array.before LongTasks.by_duration_desc)
    (Array.sort LongTasks.by_duration_desc
       (Array.filter LongTasks.is_longtask tasks)).
Proof.
  apply (sort_sorted _ LH.timed by_duration_total by_duration_trans).
  apply qualifying_timed.
Qed.

Lemma sorted_weaken {A} (R R' : relation A) l :
  (∀ x y, x ∈ l → y ∈ l → R x y → R' x y) →
  StronglySorted R l → StronglySorted R' l.
Proof.
  intros Himpl Hs. induction Hs as [|x l Hs IH Hx]; [constructor|].
  constructor.
  - apply IH. intros y z Hy Hz. apply Himpl; by right.
  - rewrite Forall_forall in Hx |- *. intros y Hy.
    apply Himpl; [by left|by right|by apply Hx].
Qed.

Lemma longtasks_sorted_le tasks :
  StronglySorted (λ a b, JS.le (LH.duration b) (LH.duration a))
    (Array.sort LongTasks.by_duration_desc
       (Array.filter LongTasks.is_longtask tasks)).
Proof.
  eapply sorted_weaken; [|apply longtasks_sorted].
  pose proof (sort_sound LongTasks.by_duration_desc LH.timed _
                (qualifying_timed tasks)) as Hall.
  rewrite Forall_forall in Hall.
  intros x y Hx Hy. apply by_duration_before; auto.
Qed.

(** ** Selection *)

(** C1. Every output row is the row of an input task that is top-level
    ([parent] is none), whose [unbounded] flag is not set (it is [false]
    whenever it is a boolean) and whose duration is at least 50; the rows
    are exactly the rows of the selected tasks; and a task that has a
    parent, or is flagged unbounded, or whose duration is not at least 50
    (shorter, or not a number) is never selected, whatever its other
    fields. *)
Theorem output_rows_satisfy_filter `{BootupTime} tasks networkRecords :
  let jsURLs := BootupTime_getJavaScriptURLs networkRecords in
  let rows := Audit.items (Audit.details (LongTasks.audit tasks networkRecords)) in
  (∀ row, row ∈ rows →
     ∃ t, t ∈ tasks
          ∧ row = LongTasks.toItem jsURLs t
          ∧ LH.parent t = None
          ∧ JS.ToBoolean (LH.unbounded t) = false
          ∧ (JS.is_boolean (LH.unbounded t) = true →
             LH.unbounded t = JS.Bool false)
          ∧ JS.le (JS.Finite 50) (LH.duration t))
  ∧ rows = LongTasks.toItem jsURLs <$> LongTasks.longtasks tasks
  ∧ (∀ t,
       is_Some (LH.parent t) ∨ JS.ToBoolean (LH.unbounded t) = true
       ∨ ¬ JS.le (JS.Finite 50) (LH.duration t) →
       t ∉ LongTasks.longtasks tasks).
Proof.
  intros jsURLs rows. split; [|split].
  - subst rows. simpl. unfold LongTasks.results, Array.map. intros row Hrow.
    apply list_elem_of_fmap in Hrow as (t & -> & Ht).
    apply longtasks_elem in Ht as [Ht Hq].
    apply is_longtask_spec in Hq as (Hp & Hu & Hd).
    exists t. repeat split; try done.
    destruct (LH.unbounded t) as [| |[]| |]; simpl in *; congruence.
  - done.
  - intros t Hfail Ht. apply longtasks_elem in Ht as [_ Hq].
    apply is_longtask_spec in Hq as (Hp & Hu & Hd).
    destruct Hfail as [[p Hp']|[Hu'|Hd']]; [congruence|congruence|done].
Qed.

Lemma output_rows_satisfy_filter_witness :
  (child_task ∉ LongTasks.longtasks sample_tasks)
  ∧ (unbounded_task ∉ LongTasks.longtasks sample_tasks)
  ∧ (sample_task "RunTask" 1000 30 [] ∉ LongTasks.longtasks sample_tasks)
  ∧ ∃ t, t ∈ sample_tasks
         ∧ LH.parent t = None
         ∧ LH.unbounded t = JS.Bool false
         ∧ JS.le (JS.Finite 50) (LH.duration t)
         ∧ LH.startTime t = 4000%Q.
Proof.
  destruct (output_rows_satisfy_filter sample_tasks sample_records)
    as (Hrows & _ & Hout).
  split; [apply Hout; left; by eexists|].
  split; [apply Hout; right; left; reflexivity|].
  split; [apply Hout; right; right; simpl; lra|].
  destruct (Hrows {| LongTasks.url := JS.String "Browser GC";
                     LongTasks.group := "scriptEvaluation";
                     LongTasks.start := 4000;
                     LongTasks.self := 50;
                     LongTasks.duration := JS.Finite 50 |})
    as (t & Hin & Hrow & Hp & _ & Hb & Hd).
  { vm_compute. right. left. }
  exists t. split; [exact Hin|]. split; [exact Hp|].
  assert (LH.startTime t = 4000%Q) as Hstart.
  { apply (f_equal LongTasks.start) in Hrow. symmetry. exact Hrow. }
  split; [|split; [exact Hd|exact Hstart]].
  apply Hb.
  clear -Hin Hstart. unfold sample_tasks in Hin.
  repeat (apply elem_of_cons in Hin as [->|Hin]); try discriminate Hstart;
    [reflexivity|by apply elem_of_nil in Hin].
Defined.

(** C3. At most 20 rows; row durations never increase along the output;
    and when more than 20 tasks pass the filter, exactly 20 rows come out,
    those of 20 passing tasks such that no passing task left out is longer
    than any of them. *)
Theorem output_capped_sorted_top20 `{BootupTime} tasks networkRecords :
  let rows := Audit.items (Audit.details (LongTasks.audit tasks networkRecords)) in
  let qualifying := Array.filter LongTasks.is_longtask tasks in
  (length rows ≤ 20)%nat
  ∧ StronglySorted
      (λ r1 r2, JS.le (LongTasks.duration r2) (LongTasks.duration r1)) rows
  ∧ ((20 < length qualifying)%nat →
     length rows = 20%nat
     ∧ rows = LongTasks.toItem (BootupTime_getJavaScriptURLs networkRecords)
                <$> LongTasks.longtasks tasks
     ∧ ∃ rest,
         qualifying ≡ₚ LongTasks.longtasks tasks ++ rest
         ∧ ∀ a b, a ∈ LongTasks.longtasks tasks → b ∈ rest →
                  JS.le (LH.duration b) (LH.duration a)).
Proof.
  intros rows qualifying.
  assert (rows = LongTasks.toItem (BootupTime_getJavaScriptURLs networkRecords)
                   <$> LongTasks.longtasks tasks) as Hrows by done.
  pose proof (longtasks_sorted_le tasks) as Hs.
  fold qualifying in Hs.
  assert (LongTasks.longtasks tasks
          = take 20 (Array.sort LongTasks.by_duration_desc qualifying))
    as Hl by done.
  rewrite <- (take_drop 20) in Hs. rewrite <- Hl in Hs.
  apply StronglySorted_app in Hs as (Hcross & Hs1 & _).
  split; [|split].
  - rewrite Hrows, length_fmap, Hl, length_take. lia.
  - rewrite Hrows.
    by apply (StronglySorted_fmap
                _ (λ a b, JS.le (LH.duration b) (LH.duration a))).
  - intros Hmany. split; [|split; [done|]].
    + rewrite Hrows, length_fmap, Hl, length_take.
      erewrite Permutation_length by apply sort_perm. lia.
    + exists (drop 20 (Array.sort LongTasks.by_duration_desc qualifying)).
      split.
      * rewrite Hl, take_drop. symmetry. apply sort_perm.
      * intros a b Ha Hb. by apply Hcross.
Qed.

Lemma output_capped_sorted_top20_witness :
  (20 < length (Array.filter LongTasks.is_longtask many_tasks))%nat
  ∧ length (Audit.items (Audit.details
              (LongTasks.audit many_tasks sample_records))) = 20%nat
  ∧ ∃ rest,
      Array.filter LongTasks.is_longtask many_tasks
        ≡ₚ LongTasks.longtasks many_tasks ++ rest
      ∧ ∀ a b, a ∈ LongTasks.longtasks many_tasks → b ∈ rest →
               JS.le (LH.duration b) (LH.duration a).
Proof.
  assert (20 < length (Array.filter LongTasks.is_longtask many_tasks))%nat
    as Hmany by (vm_compute; lia).
  split; [exact Hmany|].
  destruct (output_capped_sorted_top20 many_tasks sample_records)
    as (_ & _ & Htop).
  destruct (Htop Hmany) as (Hlen & _ & Hrest).
  split; [exact Hlen|exact Hrest].
Defined.

(** C4, as stated, fails: with durations 87, NaN and 93 and every flag
    [false], filtering first drops the NaN task before the sort and gives
    93, 87; sorting first meets the NaN task between the two others, every
    comparison with it ties, 87 and 93 stay in input order and the filter
    then gives 87, 93. *)
Lemma selection_orders_part_on_NaN :
  Forall (λ t, JS.is_boolean (LH.unbounded t) = true) tasks_with_NaN
  ∧ LH.duration <$> LongTasks.longtasks tasks_with_NaN
    = [JS.Finite 93; JS.Finite 87]
  ∧ LH.duration <$> LongTasksV1.longtasks tasks_with_NaN
    = [JS.Finite 87; JS.Finite 93]
  ∧ LH.duration <$> MainThreadTasks.longtasks tasks_with_NaN
    = [JS.Finite 87; JS.Finite 93]
  ∧ ¬ (∀ tasks,
         Forall (λ t, JS.is_boolean (LH.unbounded t) = true) tasks →
         LongTasks.longtasks tasks = LongTasksV1.longtasks tasks).
Proof.
  assert (Forall (λ t, JS.is_boolean (LH.unbounded t) = true) tasks_with_NaN)
    as Hbool by (repeat constructor).
  split; [exact Hbool|]. split; [reflexivity|]. split; [reflexivity|].
  split; [reflexivity|].
  intros Hall. specialize (Hall tasks_with_NaN Hbool).
  apply (f_equal (fmap LH.duration)) in Hall. vm_compute in Hall.
  discriminate Hall.
Qed.

(** C4, amended. When every task's [unbounded] field is a boolean and no
    task's duration is NaN, filtering then sorting then taking 20
    (long-tasks.js line 55) selects the same sequence of tasks as sorting
    then filtering then taking 20 (long-tasks.js line 187 and the
    main-thread-tasks audit). *)
Theorem selection_orders_agree tasks :
  Forall (λ t, JS.is_boolean (LH.unbounded t) = true) tasks →
  Forall (λ t, JS.is_NaN (LH.duration t) = false) tasks →
  LongTasks.longtasks tasks = LongTasksV1.longtasks tasks
  ∧ LongTasks.longtasks tasks = MainThreadTasks.longtasks tasks.
Proof.
  intros Hbool Htimed.
  assert (LongTasks.longtasks tasks = LongTasksV1.longtasks tasks) as Heq.
  { unfold LongTasks.longtasks, LongTasksV1.longtasks, Array.filter. f_equal.
    rewrite (filter_sort _ LH.timed by_duration_total by_duration_trans)
      by exact Htimed.
    f_equal.
    apply filter_ext_in. intros t Ht. symmetry. apply is_longtask_boolean.
    rewrite Forall_forall in Hbool. by apply Hbool, list_elem_of_In. }
  split; [done|]. by rewrite Heq.
Qed.

Lemma selection_orders_agree_witness :
  Forall (λ t, JS.is_boolean (LH.unbounded t) = true) sample_tasks
  ∧ Forall (λ t, JS.is_NaN (LH.duration t) = false) sample_tasks
  ∧ LongTasks.longtasks sample_tasks = LongTasksV1.longtasks sample_tasks
  ∧ LongTasks.longtasks sample_tasks = MainThreadTasks.longtasks sample_tasks.
Proof.
  assert (Forall (λ t, JS.is_boolean (LH.unbounded t) = true) sample_tasks)
    as Hbool by (repeat constructor).
  assert (Forall (λ t, JS.is_NaN (LH.duration t) = false) sample_tasks)
    as Htimed by (repeat constructor).
  split; [exact Hbool|]. split; [exact Htimed|].
  exact (selection_orders_agree sample_tasks Hbool Htimed).
Defined.

(** Without the boolean typing the two revisions part: a missing flag
    passes [!t.unbounded] and fails [t.unbounded === false]. *)
Example missing_flag_separates_revisions :
  LongTasks.longtasks [task_without_flag] = [task_without_flag]
  ∧ LongTasksV1.longtasks [task_without_flag] = [].
Proof. by vm_compute. Qed.

(** ** Report assembly *)

(** C5. No display value exactly when there is no row; with one row the
    singular phrase; with more than one the plural phrase with the count
    written in. *)
Theorem display_value_by_count `{BootupTime} tasks networkRecords :
  let product := LongTasks.audit tasks networkRecords in
  let count := length (Audit.items (Audit.details product)) in
  (Audit.displayValue product = None ↔ count = 0%nat)
  ∧ (count = 1%nat → Audit.displayValue product = Some "1 long task found")
  ∧ ((1 < count)%nat →
     Audit.displayValue product = Some (pretty count +:+ " long tasks found")).
Proof.
  intros product count. subst product. simpl in *.
  fold count. destruct count as [|[|n]] eqn:E; simpl.
  - split; [done|]. split; intros; [done|lia].
  - split; [split; intros; done|]. split; intros; [done|lia].
  - split; [split; intros; done|]. split; intros; [done|].
    unfold Icu.format, Icu.select, Icu.render.
    cbn [List.find fst snd Icu.exact Icu.other LongTasks.UIStrings.displayValue
         Nat.eqb foldr Icu.render_piece].
    reflexivity.
Qed.

Lemma display_value_by_count_witness :
  Audit.displayValue (LongTasks.audit sample_tasks sample_records)
    = Some "2 long tasks found"
  ∧ Audit.displayValue (LongTasks.audit [long_script_task] sample_records)
    = Some "1 long task found".
Proof.
  split.
  - destruct (display_value_by_count sample_tasks sample_records)
      as (_ & _ & Hplural).
    apply Hplural. vm_compute. lia.
  - destruct (display_value_by_count [long_script_task] sample_records)
      as (_ & Hsingular & _).
    apply Hsingular. reflexivity.
Defined.

(** C6. The row built for the [i]-th selected task carries the resolved
    URL of that task, its group label, and its start time, self time and
    duration under the keys [start], [self] and [duration]. *)
Theorem row_copies_task_fields `{BootupTime} tasks networkRecords i task :
  LongTasks.longtasks tasks !! i = Some task →
  ∃ row,
    Audit.items (Audit.details (LongTasks.audit tasks networkRecords)) !! i
      = Some row
    ∧ LongTasks.url row
      = BootupTime_getAttributableURLForTask task
          (BootupTime_getJavaScriptURLs networkRecords)
    ∧ LongTasks.group row = LH.label (LH.group task)
    ∧ LongTasks.start row = LH.startTime task
    ∧ LongTasks.self row = LH.selfTime task
    ∧ LongTasks.duration row = LH.duration task.
Proof.
  intros Hi. eexists. split.
  - simpl. unfold LongTasks.results, Array.map.
    rewrite list_lookup_fmap, Hi. reflexivity.
  - done.
Qed.

Lemma row_copies_task_fields_witness :
  LongTasks.longtasks sample_tasks !! 0%nat = Some long_script_task
  ∧ ∃ row,
      Audit.items (Audit.details (LongTasks.audit sample_tasks sample_records))
        !! 0%nat = Some row
      ∧ LongTasks.url row
        = LongTasksV1.getAttributableURLForTask long_script_task
            (LongTasksV1.getJavaScriptURLs sample_records)
      ∧ LongTasks.group row = "scriptEvaluation"
      ∧ LongTasks.start row = 2000%Q
      ∧ LongTasks.self row = 100%Q
      ∧ LongTasks.duration row = JS.Finite 100.
Proof.
  assert (LongTasks.longtasks sample_tasks !! 0%nat = Some long_script_task)
    as Hfirst by reflexivity.
  split; [exact Hfirst|].
  exact (row_copies_task_fields sample_tasks sample_records 0 long_script_task
           Hfirst).
Defined.

(** C10. The score is 1 whatever the tasks, the network records and the
    attribution are; so is it in the earlier revision. *)
Theorem score_is_one `{BootupTime} tasks networkRecords :
  Audit.score (LongTasks.audit tasks networkRecords) = 1%Q
  ∧ Audit.score (LongTasksV1.audit tasks networkRecords) = 1%Q.
Proof. done. Qed.

(** ** Attribution *)

Lemma copies_agree task jsURLs :
  MainThreadTasks.getAttributableURLForTask task jsURLs
  = LongTasksV1.getAttributableURLForTask task jsURLs.
Proof. reflexivity. Qed.

Lemma classify_cases eventName :
  Attributor.classify eventName = "Browser"
  ∨ Attributor.classify eventName = "Browser GC"
  ∨ Attributor.classify eventName = "Unattributable".
Proof. unfold Attributor.classify. repeat case_bool_decide; auto. Qed.

Lemma fallthrough_is_classify task :
  (if JS.has LongTasksV1.BROWSER_TASK_NAMES_SET (name (event task))
   then JS.String "Browser"
   else if JS.has LongTasksV1.BROWSER_GC_TASK_NAMES_SET (name (event task))
        then JS.String "Browser GC"
   else JS.String "Unattributable")
  = JS.String (Attributor.classify (name (event task))).
Proof. unfold Attributor.classify, JS.has. by repeat case_bool_decide. Qed.

(** C2, as stated, fails: with the empty string as the only candidate URL
    the code answers [Unattributable], where the stated precedence picks
    the first entry, which is neither absent nor [about:blank]. *)
Lemma stated_precedence_fails_on_empty_url :
  LongTasksV1.getAttributableURLForTask task_with_empty_url ∅
    = JS.String "Unattributable"
  ∧ Attributor.as_stated task_with_empty_url ∅ = ""
  ∧ ¬ (∀ task known,
         LongTasksV1.getAttributableURLForTask task known
         = JS.String (Attributor.as_stated task known)).
Proof.
  split; [by vm_compute|]. split; [by vm_compute|].
  intros Hall. specialize (Hall task_with_empty_url ∅).
  vm_compute in Hall. discriminate Hall.
Qed.

(** C2, amended. Both copies of [getAttributableURLForTask] resolve one
    string: the first entry of [attributableURLs] that is a known script
    URL unless that entry is the empty string, otherwise the first entry;
    and when there is no candidate, or the candidate is the empty string
    or [about:blank], the label chosen by the event name. *)
Theorem attribution_precedence task known :
  LongTasksV1.getAttributableURLForTask task known
    = JS.String (Attributor.as_amended task known)
  ∧ MainThreadTasks.getAttributableURLForTask task known
    = JS.String (Attributor.as_amended task known).
Proof.
  assert (LongTasksV1.getAttributableURLForTask task known
          = JS.String (Attributor.as_amended task known)) as Heq;
    [|split; [exact Heq|by rewrite copies_agree]].
  unfold LongTasksV1.getAttributableURLForTask, Attributor.as_amended.
  rewrite fallthrough_is_classify.
  unfold Array.find, Array.first, JS.has, JS.or, JS.not.
  destruct (List.find _ _) as [u|]; simpl.
  - destruct (String.eqb u "") eqn:Eu; simpl.
    + destruct (head _) as [v|]; simpl; [|done].
      by destruct (String.eqb v ""), (String.eqb v "about:blank").
    + rewrite Eu. simpl. by destruct (String.eqb u "about:blank").
  - destruct (head _) as [v|]; simpl; [|done].
    by destruct (String.eqb v ""), (String.eqb v "about:blank").
Qed.

(** C9. When the first candidate URL is the empty string and no candidate
    is a known script URL, the result is not the empty string but the
    label chosen by the event name: [Browser], [Browser GC] or
    [Unattributable]. *)
Theorem empty_first_url_falls_through task jsURLs :
  head (attributableURLs task) = Some "" →
  (∀ u, u ∈ attributableURLs task → u ∉ jsURLs) →
  let resolved := LongTasksV1.getAttributableURLForTask task jsURLs in
  resolved ≠ JS.String ""
  ∧ resolved = JS.String (Attributor.classify (name (event task)))
  ∧ (resolved = JS.String "Browser" ∨ resolved = JS.String "Browser GC"
     ∨ resolved = JS.String "Unattributable")
  ∧ MainThreadTasks.getAttributableURLForTask task jsURLs = resolved.
Proof.
  intros Hhead Hnone resolved.
  assert (resolved = JS.String (Attributor.classify (name (event task)))) as Hr.
  { subst resolved. unfold LongTasksV1.getAttributableURLForTask.
    rewrite fallthrough_is_classify.
    unfold Array.find, Array.first, JS.has.
    destruct (List.find _ _) as [u|] eqn:Hfind.
    - apply find_some in Hfind as [Hin Hu].
      apply bool_decide_eq_true in Hu.
      by apply list_elem_of_In, Hnone in Hin.
    - by rewrite Hhead. }
  rewrite Hr. split; [|split; [done|split; [|done]]].
  - destruct (classify_cases (name (event task))) as [-> | [-> | ->]];
      discriminate.
  - destruct (classify_cases (name (event task))) as [-> | [-> | ->]]; auto.
Qed.

Lemma empty_first_url_falls_through_witness :
  head (attributableURLs task_with_empty_url) = Some ""
  ∧ LongTasksV1.getAttributableURLForTask task_with_empty_url
      {[ "https://pwa.rocks/script.js" ]} ≠ JS.String ""
  ∧ LongTasksV1.getAttributableURLForTask task_with_empty_url
      {[ "https://pwa.rocks/script.js" ]} = JS.String "Unattributable".
Proof.
  assert (head (attributableURLs task_with_empty_url) = Some "")
    as Hhead by reflexivity.
  assert (∀ u, u ∈ attributableURLs task_with_empty_url →
               u ∉ ({[ "https://pwa.rocks/script.js" ]} : gset string))
    as Hnone.
  { intros u Hu. apply list_elem_of_singleton in Hu as ->.
    intros Hin%elem_of_singleton. discriminate Hin. }
  destruct (empty_first_url_falls_through task_with_empty_url
              {[ "https://pwa.rocks/script.js" ]} Hhead Hnone)
    as (Hne & Hlabel & _).
  split; [exact Hhead|]. split; [exact Hne|exact Hlabel].
Defined.

(** ** Runs on the heap *)

Section heap_facts.
Import Heap.
Implicit Types h : gmap ref Obj.

Lemma returns_ret {A} (x : A) h post : post x h → returns (mret x) h post.
Proof. intros. by exists x, h. Qed.

Lemma returns_bind {A B} (c : M A) (k : A → M B) h post :
  returns c h (λ x h', returns (k x) h' post) → returns (c ≫= k) h post.
Proof.
  intros (x & h' & Hc & y & h'' & Hk & Hpost).
  exists y, h''. split; [|done].
  unfold mbind, M_bind. by rewrite Hc.
Qed.

Lemma returns_alloc o h post :
  (∀ r, h !! r = None → post r (<[r := o]> h)) → returns (alloc o) h post.
Proof.
  intros Hpost. eexists _, _. split; [reflexivity|].
  apply Hpost, not_elem_of_dom, is_fresh.
Qed.

Lemma returns_write r o h post :
  post tt (<[r := o]> h) → returns (write r o) h post.
Proof. intros. by eexists _, _. Qed.

Lemma returns_read_tasks r a h post :
  h !! r = Some (Tasks a) → post a h → returns (read_tasks r) h post.
Proof.
  intros Hr ?. exists a, h. split; [|done]. unfold read_tasks. by rewrite Hr.
Qed.

Lemma returns_read_records r a h post :
  h !! r = Some (Records a) → post a h → returns (read_records r) h post.
Proof.
  intros Hr ?. exists a, h. split; [|done]. unfold read_records. by rewrite Hr.
Qed.

Lemma returns_read_urls r s h post :
  h !! r = Some (Urls s) → post s h → returns (read_urls r) h post.
Proof.
  intros Hr ?. exists s, h. split; [|done]. unfold read_urls. by rewrite Hr.
Qed.

Lemma returns_length_items r ys h post :
  h !! r = Some (Items ys) → post (length ys) h →
  returns (length_items r) h post.
Proof.
  intros Hr ?. eexists _, h. split; [|done]. unfold length_items. by rewrite Hr.
Qed.

(** The loop of [getJavaScriptURLs] leaves the set it fills holding what
    the fold computes, and nothing else changed. *)
Lemma returns_add_loop urls rs : ∀ s h post,
  h !! urls = Some (Urls s) →
  post tt (<[urls := Urls (foldl LongTasksV1.add_if_script s rs)]> h) →
  returns
    (for_of (λ record,
       if is_Script (LH.resourceType record)
       then s ← read_urls urls; write urls (Urls ({[ LH.url record ]} ∪ s))
       else mret tt) rs) h post.
Proof.
  induction rs as [|record rs IH]; intros s h post Hs Hpost; simpl.
  - apply returns_ret. simpl in Hpost. by rewrite insert_id in Hpost.
  - apply returns_bind. simpl in Hpost.
    unfold LongTasksV1.add_if_script at 2 in Hpost.
    destruct (is_Script _).
    + apply returns_bind. eapply returns_read_urls; [done|].
      apply returns_write. eapply IH; [apply lookup_insert_eq|].
      by rewrite insert_insert_eq.
    + apply returns_ret. by eapply IH.
Qed.

Lemma returns_getJavaScriptURLs records rs h post :
  h !! records = Some (Records rs) →
  (∀ urls, h !! urls = None →
     post urls (<[urls := Urls (LongTasksV1.getJavaScriptURLs rs)]> h)) →
  returns (getJavaScriptURLs records) h post.
Proof.
  intros Hrs Hpost. unfold getJavaScriptURLs.
  apply returns_bind, returns_alloc. intros urls Hfresh.
  apply returns_bind. eapply returns_read_records.
  { rewrite lookup_insert_ne; [done|]. intros ->. congruence. }
  apply returns_bind. eapply returns_add_loop; [apply lookup_insert_eq|].
  apply returns_ret. rewrite insert_insert_eq. by apply Hpost.
Qed.

(** Attribution only reads: the heap it leaves is the heap it found. *)
Lemma returns_getAttributableURLForTask task jsURLs s h post :
  h !! jsURLs = Some (Urls s) →
  post (LongTasksV1.getAttributableURLForTask task s) h →
  returns (getAttributableURLForTask task jsURLs) h post.
Proof.
  intros Hs Hpost. unfold getAttributableURLForTask.
  apply returns_bind. eapply returns_read_urls; [done|]. by apply returns_ret.
Qed.

Lemma returns_each_row jsURLs s xs : ∀ h post,
  h !! jsURLs = Some (Urls s) →
  post (LongTasksV1.toItem s <$> xs) h →
  returns
    (each (λ task,
       url ← getAttributableURLForTask task jsURLs;
       mret {| LongTasks.url := url;
               LongTasks.group := LH.label (LH.group task);
               LongTasks.start := LH.startTime task;
               LongTasks.self := LH.selfTime task;
               LongTasks.duration := LH.duration task |}) xs) h post.
Proof.
  induction xs as [|x xs IH]; intros h post Hs Hpost; simpl.
  - by apply returns_ret.
  - apply returns_bind, returns_bind.
    eapply returns_getAttributableURLForTask; [done|].
    apply returns_ret, returns_bind. apply IH; [done|]. by apply returns_ret.
Qed.

(** The run of the audit on the heap: it returns, every object of the
    initial heap is left as it was, and the rows, the score and the display
    value are those of the audit computed on the contents of the two input
    arrays. *)
Lemma audit_returns tasks networkRecords ts rs h :
  h !! tasks = Some (Tasks ts) →
  h !! networkRecords = Some (Records rs) →
  returns (Heap.audit tasks networkRecords) h (λ product h',
    let pure := LongTasks.audit ts rs in
    h ⊆ h'
    ∧ h !! Audit.items (Audit.details product) = None
    ∧ h' !! Audit.items (Audit.details product)
      = Some (Items (Audit.items (Audit.details pure)))
    ∧ Audit.headings (Audit.details product)
      = Audit.headings (Audit.details pure)
    ∧ Audit.score product = Audit.score pure
    ∧ Audit.displayValue product = Audit.displayValue pure).
Proof.
  intros Hts Hrs. unfold Heap.audit.
  apply returns_bind. eapply returns_getJavaScriptURLs; [done|].
  intros urls Hurls.
  apply returns_bind. unfold spread.
  apply returns_bind. eapply returns_read_tasks.
  { rewrite lookup_insert_ne; [done|]. intros ->. congruence. }
  apply returns_alloc. intros copy Hcopy.
  apply returns_bind. unfold filter.
  apply returns_bind. eapply returns_read_tasks; [apply lookup_insert_eq|].
  apply returns_alloc. intros filtered Hfiltered.
  apply returns_bind. unfold sort.
  apply returns_bind. eapply returns_read_tasks; [apply lookup_insert_eq|].
  apply returns_bind, returns_write, returns_ret. rewrite insert_insert_eq.
  apply returns_bind. unfold slice0.
  apply returns_bind. eapply returns_read_tasks; [apply lookup_insert_eq|].
  apply returns_alloc. intros longtasks Hlongtasks.
  apply returns_bind. unfold map.
  apply returns_bind. eapply returns_read_tasks; [apply lookup_insert_eq|].
  apply returns_bind.
  apply lookup_insert_None in Hlongtasks as [Hlongtasks ?].
  apply lookup_insert_None in Hfiltered as [Hfiltered ?].
  apply lookup_insert_None in Hlongtasks as [Hlongtasks ?].
  apply lookup_insert_None in Hcopy as [Hcopy ?].
  apply lookup_insert_None in Hfiltered as [Hfiltered ?].
  apply lookup_insert_None in Hlongtasks as [Hlongtasks ?].
  eapply returns_each_row.
  { rewrite !lookup_insert_ne by done. apply lookup_insert_eq. }
  apply returns_alloc. intros results Hresults.
  apply returns_bind. eapply returns_length_items; [apply lookup_insert_eq|].
  apply returns_ret.
  repeat (apply lookup_insert_None in Hresults as [Hresults ?]).
  split; [|split; [done|split; [|done]]].
  - repeat (apply insert_subseteq_r; [done|]). done.
  - simpl. by rewrite lookup_insert_eq.
Qed.

End heap_facts.

(** ** Determinism and frame *)

(** C7. Two runs of the audit, in any two heaps whose task array and
    record array hold the same contents, both return, with the same rows
    in the same order, the same headings, the same score and the same
    display value. *)
Theorem audit_deterministic tasks1 records1 h1 tasks2 records2 h2 ts rs :
  h1 !! tasks1 = Some (Heap.Tasks ts) →
  h1 !! records1 = Some (Heap.Records rs) →
  h2 !! tasks2 = Some (Heap.Tasks ts) →
  h2 !! records2 = Some (Heap.Records rs) →
  Heap.returns (Heap.audit tasks1 records1) h1 (λ product1 h1',
    Heap.returns (Heap.audit tasks2 records2) h2 (λ product2 h2',
      ∃ rows,
        h1' !! Audit.items (Audit.details product1) = Some (Heap.Items rows)
        ∧ h2' !! Audit.items (Audit.details product2) = Some (Heap.Items rows)
        ∧ Audit.headings (Audit.details product1)
          = Audit.headings (Audit.details product2)
        ∧ Audit.score product1 = Audit.score product2
        ∧ Audit.displayValue product1 = Audit.displayValue product2)).
Proof.
  intros Ht1 Hr1 Ht2 Hr2.
  destruct (audit_returns _ _ _ _ _ Ht1 Hr1)
    as (p1 & h1' & Hrun1 & _ & _ & Hrows1 & Hh1 & Hs1 & Hd1).
  destruct (audit_returns _ _ _ _ _ Ht2 Hr2)
    as (p2 & h2' & Hrun2 & _ & _ & Hrows2 & Hh2 & Hs2 & Hd2).
  exists p1, h1'. split; [done|].
  exists p2, h2'. split; [done|].
  eexists. split; [exact Hrows1|]. split; [exact Hrows2|].
  by rewrite Hh1, Hh2, Hs1, Hs2, Hd1, Hd2.
Qed.

Lemma audit_deterministic_witness :
  Heap.returns (Heap.audit 1%positive 2%positive) sample_heap
    (λ product1 h1',
       Heap.returns (Heap.audit 5%positive 7%positive) other_heap
         (λ product2 h2',
            ∃ rows,
              h1' !! Audit.items (Audit.details product1)
                = Some (Heap.Items rows)
              ∧ h2' !! Audit.items (Audit.details product2)
                = Some (Heap.Items rows)
              ∧ Audit.headings (Audit.details product1)
                = Audit.headings (Audit.details product2)
              ∧ Audit.score product1 = Audit.score product2
              ∧ Audit.displayValue product1 = Audit.displayValue product2)).
Proof.
  apply (audit_deterministic 1%positive 2%positive sample_heap
           5%positive 7%positive other_heap sample_tasks sample_records);
    reflexivity.
Defined.

(** C8. The audit returns leaving the task array, the record array and
    every other object of the heap it started from as they were (what it
    sorts is an array it allocated itself); and attribution leaves the
    whole heap, the set of script URLs included, as it was. *)
Theorem inputs_not_mutated tasks networkRecords ts rs h :
  h !! tasks = Some (Heap.Tasks ts) →
  h !! networkRecords = Some (Heap.Records rs) →
  Heap.returns (Heap.audit tasks networkRecords) h (λ product h',
    h' !! tasks = Some (Heap.Tasks ts)
    ∧ h' !! networkRecords = Some (Heap.Records rs)
    ∧ (∀ r o, h !! r = Some o → h' !! r = Some o)
    ∧ h !! Audit.items (Audit.details product) = None)
  ∧ (∀ task jsURLs s,
       h !! jsURLs = Some (Heap.Urls s) →
       Heap.returns (Heap.getAttributableURLForTask task jsURLs) h
         (λ resolved h',
            h' = h ∧ resolved = LongTasksV1.getAttributableURLForTask task s)).
Proof.
  intros Hts Hrs. split.
  - destruct (audit_returns _ _ _ _ _ Hts Hrs)
      as (p & h' & Hrun & Hsub & Hnew & _).
    exists p, h'. split; [done|].
    repeat split; eauto using lookup_weaken.
  - intros task jsURLs s Hs.
    by eapply returns_getAttributableURLForTask.
Qed.

Lemma inputs_not_mutated_witness :
  Heap.returns (Heap.audit 5%positive 7%positive) other_heap (λ product h',
    h' !! 5%positive = Some (Heap.Tasks sample_tasks)
    ∧ h' !! 7%positive = Some (Heap.Records sample_records)
    ∧ (∀ r o, other_heap !! r = Some o → h' !! r = Some o)
    ∧ other_heap !! Audit.items (Audit.details product) = None)
  ∧ Heap.returns
      (Heap.getAttributableURLForTask long_script_task 1%positive) other_heap
      (λ resolved h',
         h' = other_heap
         ∧ resolved
           = LongTasksV1.getAttributableURLForTask long_script_task
               {[ "https://pwa.rocks/script.js" ]}).
Proof.
  destruct (inputs_not_mutated 5%positive 7%positive sample_tasks
              sample_records other_heap) as [Haudit Hattr];
    [reflexivity|reflexivity|].
  split; [exact Haudit|].
  apply Hattr. reflexivity.
Defined.

(** [sort] itself writes into its receiver: applied to the input array
    directly it would reorder it. *)
Example sort_is_in_place :
  ∃ h', Heap.sort LongTasks.by_duration_desc 1%positive sample_heap
        = Some (1%positive, h')
        ∧ h' !! 1%positive ≠ sample_heap !! 1%positive.
Proof. eexists. split; [reflexivity|]. by vm_compute. Qed.

(** ** Scenarios of the specification (section 8) *)

Example scenario_A :
  LongTasks.audit
    [sample_task "RunTask" 1000 30 []; sample_task "RunTask" 2000 49 []]
    sample_records
  = {| Audit.score := 1;
       Audit.details := Audit.makeTableDetails LongTasks.headings [];
       Audit.displayValue := None |}.
Proof. reflexivity. Qed.

Example scenario_B :
  let product :=
    LongTasks.audit
      ((λ i : nat, sample_task "RunTask" (inject_Z (1000 * Z.of_nat i)) 200 [])
         <$> seq 1 4) sample_records in
  LongTasks.url <$> Audit.items (Audit.details product)
    = replicate 4 (JS.String "Unattributable")
  ∧ Audit.displayValue product = Some "4 long tasks found".
Proof. by vm_compute. Qed.

Example scenario_C :
  let product :=
    LongTasks.audit
      [ sample_task "RunTask" 1000 30 []; sample_task "RunTask" 2000 100 [];
        sample_task "RunTask" 3000 25 []; sample_task "RunTask" 4000 50 [] ]
      sample_records in
  LongTasks.duration <$> Audit.items (Audit.details product)
    = [JS.Finite 100; JS.Finite 50]
  ∧ Audit.displayValue product = Some "2 long tasks found".
Proof. by vm_compute. Qed.

Example scenario_D :
  let product :=
    LongTasks.audit
      [ sample_task "RunTask" 1000 200
          ["https://pwa.rocks/"; "https://pwa.rocks/script.js"] ]
      sample_records in
  LongTasks.url <$> Audit.items (Audit.details product)
    = [JS.String "https://pwa.rocks/script.js"]
  ∧ Audit.displayValue product = Some "1 long task found".
Proof. by vm_compute. Qed.

(** * Further properties of the code *)

(** ** Lists *)

Lemma filter_is_sublist {A} (p : A → bool) l : List.filter p l `sublist_of` l.
Proof.
  induction l as [|x l IH]; simpl; [constructor|].
  destruct (p x); by constructor.
Qed.

Lemma filter_all {A} (p : A → bool) l :
  Forall (λ x, p x = true) l → List.filter p l = l.
Proof. induction 1 as [|x l Hx _ IH]; simpl; [done|]. by rewrite Hx, IH. Qed.

Lemma filter_none {A} (p : A → bool) l :
  Forall (λ x, p x = false) l ↔ List.filter p l = [].
Proof.
  induction l as [|x l IH]; simpl; [by split; [|constructor]|].
  destruct (p x) eqn:Hx.
  - split; [|done]. intros Hall. inv Hall. congruence.
  - rewrite <- IH. split; [intros Hall; by inv Hall|by constructor].
Qed.

Lemma filter_perm {A} (p : A → bool) l l' :
  l ≡ₚ l' → List.filter p l ≡ₚ List.filter p l'.
Proof.
  induction 1 as [|x l l' _ IH|x y l|l l' l'' _ IH1 _ IH2]; simpl.
  - done.
  - destruct (p x); by rewrite IH.
  - destruct (p x), (p y); try done. apply Permutation_swap.
  - by rewrite IH1.
Qed.

Lemma filter_take_prefix {A} (p : A → bool) n l :
  List.filter p (take n l) `prefix_of` List.filter p l.
Proof.
  rewrite <- (take_drop n l) at 2. rewrite List.filter_app.
  by apply prefix_app_r.
Qed.

Lemma sort_of_sorted {A} (comparefn : A → A → JS.Num) a :
  StronglySorted (Array.before comparefn) a → Array.sort comparefn a = a.
Proof.
  induction 1 as [|x a Hs IH Hx]; simpl; [done|].
  rewrite IH. apply insert_front. destruct a; [done|]. by inv Hx.
Qed.

(** ** Selection: how many, which ones, in which order *)

Lemma qualifying_sorted_all tasks :
  Forall (λ t, LongTasks.is_longtask t = true)
    (Array.sort LongTasks.by_duration_desc
       (Array.filter LongTasks.is_longtask tasks)).
Proof.
  rewrite Forall_forall. intros t Ht. rewrite sort_perm in Ht.
  by apply list_elem_of_In, filter_In in Ht as [_ ?].
Qed.

(** X1. The number of rows is the number of qualifying tasks, cut at 20. *)
Theorem rows_count `{BootupTime} tasks networkRecords :
  length (Audit.items (Audit.details (LongTasks.audit tasks networkRecords)))
  = (20 `min` length (Array.filter LongTasks.is_longtask tasks))%nat.
Proof.
  simpl. unfold LongTasks.results, Array.map, LongTasks.longtasks, Array.slice0.
  rewrite length_fmap, length_take.
  by erewrite Permutation_length by apply sort_perm.
Qed.

(** X2. When at most 20 tasks qualify none is dropped: the selection is a
    rearrangement of the qualifying tasks. *)
Theorem none_dropped_under_cap tasks :
  (length (Array.filter LongTasks.is_longtask tasks) ≤ 20)%nat →
  LongTasks.longtasks tasks ≡ₚ Array.filter LongTasks.is_longtask tasks
  ∧ ∀ t, t ∈ tasks → LongTasks.is_longtask t = true →
         t ∈ LongTasks.longtasks tasks.
Proof.
  intros Hfew.
  assert (LongTasks.longtasks tasks
            ≡ₚ Array.filter LongTasks.is_longtask tasks) as Hperm.
  { unfold LongTasks.longtasks, Array.slice0.
    rewrite take_ge; [apply sort_perm|].
    by erewrite Permutation_length by apply sort_perm. }
  split; [done|]. intros t Hin Hq. rewrite Hperm.
  apply list_elem_of_In, filter_In. split; [by apply list_elem_of_In|done].
Qed.

Lemma none_dropped_under_cap_witness :
  (length (Array.filter LongTasks.is_longtask sample_tasks) ≤ 20)%nat
  ∧ LongTasks.longtasks sample_tasks
      ≡ₚ Array.filter LongTasks.is_longtask sample_tasks.
Proof.
  assert (length (Array.filter LongTasks.is_longtask sample_tasks) ≤ 20)%nat
    as Hfew by (vm_compute; lia).
  split; [exact Hfew|exact (proj1 (none_dropped_under_cap sample_tasks Hfew))].
Defined.

(** X3. The first selected task is a longest qualifying task. *)
Theorem first_row_is_longest tasks t q :
  head (LongTasks.longtasks tasks) = Some t →
  q ∈ tasks → LongTasks.is_longtask q = true →
  JS.le (LH.duration q) (LH.duration t).
Proof.
  unfold LongTasks.longtasks, Array.slice0. intros Hhead Hin Hq.
  pose proof (longtasks_sorted_le tasks) as Hs.
  assert (q ∈ Array.sort LongTasks.by_duration_desc
                 (Array.filter LongTasks.is_longtask tasks)) as Hqs.
  { rewrite sort_perm. apply list_elem_of_In, filter_In.
    split; [by apply list_elem_of_In|done]. }
  destruct (Array.sort _ _) as [|t' S]; [done|].
  simpl in Hhead. injection Hhead as ->.
  apply StronglySorted_cons in Hs as [Hall _].
  apply elem_of_cons in Hqs as [->|Hqs].
  - apply longtask_timed in Hq. unfold LH.timed in Hq.
    destruct (LH.duration _); [done|]. simpl. lra.
  - rewrite Forall_forall in Hall. by apply Hall.
Qed.

Lemma first_row_is_longest_witness :
  head (LongTasks.longtasks sample_tasks) = Some long_script_task
  ∧ JS.le (LH.duration (sample_task "MajorGC" 4000 50 []))
       (LH.duration long_script_task).
Proof.
  assert (head (LongTasks.longtasks sample_tasks) = Some long_script_task)
    as Hhead by reflexivity.
  split; [exact Hhead|].
  apply (first_row_is_longest sample_tasks _ _ Hhead); [|reflexivity].
  unfold sample_tasks. do 5 right. left.
Defined.

(** X4. There is no row, and no display value, exactly when no task of the
    input qualifies. *)
Theorem no_rows_iff_none_qualifies `{BootupTime} tasks networkRecords :
  let product := LongTasks.audit tasks networkRecords in
  (Audit.items (Audit.details product) = []
   ↔ Forall (λ t, LongTasks.is_longtask t = false) tasks)
  ∧ (Audit.displayValue product = None
     ↔ Forall (λ t, LongTasks.is_longtask t = false) tasks).
Proof.
  intros product.
  assert (Audit.items (Audit.details product) = []
          ↔ Forall (λ t, LongTasks.is_longtask t = false) tasks) as Hrows.
  { rewrite filter_none. subst product. simpl.
    unfold LongTasks.results, Array.map.
    unfold LongTasks.longtasks, Array.slice0, Array.filter.
    destruct (List.filter _ tasks) as [|x l] eqn:Hf; [done|].
    split; [|done]. intros Hnil.
    apply (f_equal length) in Hnil.
    rewrite length_fmap, length_take in Hnil.
    erewrite Permutation_length in Hnil by apply sort_perm.
    simpl in Hnil. lia. }
  split; [done|]. rewrite <- Hrows. subst product. simpl.
  destruct (LongTasks.results tasks networkRecords); simpl; split; done.
Qed.

(** X5. Tasks that do not qualify have no influence on the selection,
    wherever they stand in the input. *)
Theorem unqualified_tasks_ignored tasks1 extra tasks2 :
  Forall (λ t, LongTasks.is_longtask t = false) extra →
  LongTasks.longtasks (tasks1 ++ extra ++ tasks2)
  = LongTasks.longtasks (tasks1 ++ tasks2).
Proof.
  intros Hextra. apply filter_none in Hextra.
  unfold LongTasks.longtasks, Array.filter.
  by rewrite !List.filter_app, Hextra.
Qed.

Lemma unqualified_tasks_ignored_witness :
  LongTasks.longtasks
    ([long_script_task] ++ [child_task; unbounded_task] ++ tied_tasks)
  = LongTasks.longtasks ([long_script_task] ++ tied_tasks).
Proof.
  apply unqualified_tasks_ignored. by repeat constructor.
Defined.

(** X6. Selecting among the selected tasks changes nothing. *)
Theorem selection_idempotent tasks :
  LongTasks.longtasks (LongTasks.longtasks tasks) = LongTasks.longtasks tasks.
Proof.
  pose proof (longtasks_sorted tasks) as Hs.
  pose proof (qualifying_sorted_all tasks) as Hq.
  unfold LongTasks.longtasks at 1. unfold Array.filter, Array.slice0.
  unfold LongTasks.longtasks, Array.slice0.
  set (S := Array.sort _ _) in *.
  rewrite filter_all by (by apply Forall_take).
  rewrite sort_of_sorted.
  - by rewrite take_take, Nat.min_id.
  - rewrite <- (take_drop 20 S) in Hs.
    by apply StronglySorted_app in Hs as (_ & ? & _).
Qed.

(** X7. Among selected tasks of one duration the order is the order of
    the input: they are the first of the qualifying tasks of that duration,
    in input order. *)
Theorem ties_keep_input_order tasks d :
  List.filter (λ t, JS.same (LH.duration t) d) (LongTasks.longtasks tasks)
  `prefix_of`
  List.filter (λ t, JS.same (LH.duration t) d)
    (Array.filter LongTasks.is_longtask tasks).
Proof.
  unfold LongTasks.longtasks, Array.slice0.
  rewrite <- (sort_stable LongTasks.by_duration_desc LH.timed
                by_duration_total by_duration_trans
                (λ t, JS.same (LH.duration t) d)
                (Array.filter LongTasks.is_longtask tasks)).
  - apply filter_take_prefix.
  - apply qualifying_timed.
  - intros x y Hx Hy.
    unfold Array.before, Array.SortCompare, LongTasks.by_duration_desc.
    destruct (LH.duration x), (LH.duration y), d; simpl in *; try done.
    apply Qeq_bool_iff in Hx, Hy. lra.
Qed.

(** X8. The selection takes each task at most as often as the input holds
    it: nothing is invented, nothing is repeated. *)
Theorem selection_within_input tasks :
  LongTasks.longtasks tasks ⊆+ tasks
  ∧ (NoDup tasks → NoDup (LongTasks.longtasks tasks)).
Proof.
  assert (LongTasks.longtasks tasks ⊆+ tasks) as Hsub.
  { unfold LongTasks.longtasks, Array.slice0, Array.filter.
    etrans; [apply sublist_submseteq, sublist_take|].
    rewrite sort_perm. apply sublist_submseteq, filter_is_sublist. }
  split; [done|]. intros Hnd.
  apply submseteq_Permutation in Hsub as [rest Hrest].
  rewrite Hrest in Hnd. by apply NoDup_app in Hnd as [? _].
Qed.

Lemma selection_within_input_witness :
  NoDup tied_tasks ∧ NoDup (LongTasks.longtasks tied_tasks).
Proof.
  assert (NoDup tied_tasks) as Hnd.
  { unfold tied_tasks.
    repeat (apply NoDup_cons; split;
            [intros Hin;
             repeat (apply elem_of_cons in Hin as [Hin|Hin];
                     [discriminate Hin|]);
             by apply elem_of_nil in Hin|]).
    apply NoDup_nil_2. }
  split; [exact Hnd|].
  exact (proj2 (selection_within_input tied_tasks) Hnd).
Defined.

(** X9. When no two distinct qualifying tasks have the same duration, the
    selection does not depend on the order of the input. *)
Theorem input_order_irrelevant_without_ties tasks tasks' :
  tasks ≡ₚ tasks' →
  (∀ x y, x ∈ tasks → y ∈ tasks →
          LongTasks.is_longtask x = true → LongTasks.is_longtask y = true →
          JS.same (LH.duration x) (LH.duration y) = true → x = y) →
  LongTasks.longtasks tasks = LongTasks.longtasks tasks'.
Proof.
  intros Hperm Hdistinct. unfold LongTasks.longtasks. f_equal.
  apply (StronglySorted_unique_strong (Array.before LongTasks.by_duration_desc)).
  - intros x y Hx Hy Hxy Hyx.
    rewrite sort_perm in Hx, Hy.
    apply list_elem_of_In, filter_In in Hx as [Hx ?].
    apply list_elem_of_In, filter_In in Hy as [Hy ?].
    apply list_elem_of_In in Hx, Hy. rewrite <- Hperm in Hy.
    apply Hdistinct; try done.
    unfold Array.before, Array.SortCompare, LongTasks.by_duration_desc
      in Hxy, Hyx.
    assert (LH.timed x) as Hgx by by apply longtask_timed.
    assert (LH.timed y) as Hgy by by apply longtask_timed.
    unfold LH.timed in Hgx, Hgy.
    destruct (LH.duration x), (LH.duration y); simpl in *; try done.
    apply Qeq_bool_iff. lra.
  - apply longtasks_sorted.
  - apply longtasks_sorted.
  - rewrite !sort_perm. by apply filter_perm.
Qed.

Lemma input_order_irrelevant_without_ties_witness :
  LongTasks.longtasks sample_tasks = LongTasks.longtasks (reverse sample_tasks).
Proof.
  apply input_order_irrelevant_without_ties.
  - by rewrite reverse_Permutation.
  - intros x y Hx Hy Hqx Hqy Hd. unfold sample_tasks in Hx, Hy.
    repeat (apply elem_of_cons in Hx as [->|Hx]); try discriminate Hqx;
      try (by apply elem_of_nil in Hx);
      repeat (apply elem_of_cons in Hy as [->|Hy]); try discriminate Hqy;
      try (by apply elem_of_nil in Hy);
      try reflexivity; by vm_compute in Hd.
Defined.

(** ** The earlier revision and the main-thread-tasks audit *)

Lemma is_longtask_v1_spec t :
  LongTasksV1.is_longtask t = true ↔
  LH.parent t = None ∧ LH.unbounded t = JS.Bool false
  ∧ JS.le (JS.Finite 50) (LH.duration t).
Proof.
  unfold LongTasksV1.is_longtask, JS.not_ref.
  rewrite !andb_true_iff, ge_threshold.
  destruct (LH.parent t), (LH.unbounded t) as [| |[]| |]; simpl;
    intuition congruence.
Qed.

Lemma filter_timed (p : TaskNode → bool) tasks :
  Forall LH.timed tasks → Forall LH.timed (List.filter p tasks).
Proof.
  rewrite !Forall_forall. intros Hall t Ht.
  apply list_elem_of_In, filter_In in Ht as [Ht%list_elem_of_In _]. auto.
Qed.

(** X10. Provided no duration is NaN, sorting the whole task list before
    filtering it, as the earlier revision and the main-thread-tasks audit
    do, selects what filtering first selects, ties included and whatever
    the flags hold; the two audits select the same tasks in any case. *)
Theorem v1_sort_then_filter_is_filter_then_sort tasks :
  Forall (λ t, JS.is_NaN (LH.duration t) = false) tasks →
  LongTasksV1.longtasks tasks
  = Array.slice0 20
      (Array.sort LongTasks.by_duration_desc
         (Array.filter LongTasksV1.is_longtask tasks))
  ∧ MainThreadTasks.longtasks tasks = LongTasksV1.longtasks tasks.
Proof.
  intros Htimed. split; [|done]. unfold LongTasksV1.longtasks, Array.filter.
  by rewrite (filter_sort _ LH.timed by_duration_total by_duration_trans).
Qed.

Lemma v1_sort_then_filter_is_filter_then_sort_witness :
  Forall (λ t, JS.is_NaN (LH.duration t) = false) tied_tasks
  ∧ LongTasksV1.longtasks tied_tasks
    = Array.slice0 20
        (Array.sort LongTasks.by_duration_desc
           (Array.filter LongTasksV1.is_longtask tied_tasks)).
Proof.
  assert (Forall (λ t, JS.is_NaN (LH.duration t) = false) tied_tasks)
    as Htimed by (repeat constructor).
  split; [exact Htimed|].
  exact (proj1 (v1_sort_then_filter_is_filter_then_sort tied_tasks Htimed)).
Defined.

(** X11. The earlier revision selects only top-level tasks of duration at
    least 50 whose flag is the boolean [false] itself, at most 20 of them;
    provided no duration of the input is NaN, they come longest first. *)
Theorem v1_selection_strict tasks :
  (∀ t, t ∈ LongTasksV1.longtasks tasks →
        t ∈ tasks ∧ LH.parent t = None ∧ LH.unbounded t = JS.Bool false
        ∧ JS.le (JS.Finite 50) (LH.duration t))
  ∧ (length (LongTasksV1.longtasks tasks) ≤ 20)%nat
  ∧ (Forall (λ t, JS.is_NaN (LH.duration t) = false) tasks →
     StronglySorted (λ a b, JS.le (LH.duration b) (LH.duration a))
       (LongTasksV1.longtasks tasks)).
Proof.
  split; [|split].
  - unfold LongTasksV1.longtasks, Array.slice0, Array.filter. intros t Ht.
    apply elem_of_take in Ht as (i & Ht & _).
    apply list_elem_of_lookup_2, list_elem_of_In, filter_In in Ht as [Ht Hq].
    apply list_elem_of_In in Ht. rewrite sort_perm in Ht.
    by apply is_longtask_v1_spec in Hq.
  - unfold LongTasksV1.longtasks, Array.slice0. rewrite length_take. lia.
  - intros Htimed.
    unfold LongTasksV1.longtasks, Array.slice0, Array.filter.
    rewrite (filter_sort _ LH.timed by_duration_total by_duration_trans)
      by exact Htimed.
    pose proof (filter_timed LongTasksV1.is_longtask tasks Htimed) as Hft.
    pose proof (sort_sorted LongTasks.by_duration_desc LH.timed
                  by_duration_total by_duration_trans _ Hft) as Hs.
    pose proof (sort_sound LongTasks.by_duration_desc LH.timed _ Hft) as Hall.
    rewrite Forall_forall in Hall.
    eapply (sorted_weaken _ (λ a b, JS.le (LH.duration b) (LH.duration a)))
      in Hs; [|by intros x y Hx Hy; apply by_duration_before; auto].
    rewrite <- (take_drop 20) in Hs.
    by apply StronglySorted_app in Hs as (_ & Hs & _).
Qed.

Lemma v1_selection_strict_witness :
  long_script_task ∈ LongTasksV1.longtasks sample_tasks
  ∧ LH.unbounded long_script_task = JS.Bool false
  ∧ JS.le (JS.Finite 50) (LH.duration long_script_task)
  ∧ StronglySorted (λ a b, JS.le (LH.duration b) (LH.duration a))
      (LongTasksV1.longtasks sample_tasks).
Proof.
  assert (long_script_task ∈ LongTasksV1.longtasks sample_tasks) as Hin
    by (vm_compute; left).
  split; [exact Hin|].
  destruct (v1_selection_strict sample_tasks) as (Hsel & _ & Hsorted).
  destruct (Hsel long_script_task Hin) as (_ & _ & Hflag & Hdur).
  split; [exact Hflag|]. split; [exact Hdur|].
  apply Hsorted. by repeat constructor.
Defined.

(** X12. Provided no duration is NaN, the earlier revision selects what
    the later one selects among the tasks whose flag is a boolean: it
    differs only by dropping the tasks whose flag is anything else. *)
Theorem v1_is_current_on_boolean_flags tasks :
  Forall (λ t, JS.is_NaN (LH.duration t) = false) tasks →
  LongTasksV1.longtasks tasks
  = LongTasks.longtasks
      (List.filter (λ t, JS.is_boolean (LH.unbounded t)) tasks).
Proof.
  intros Htimed.
  unfold LongTasksV1.longtasks, LongTasks.longtasks, Array.filter.
  rewrite (filter_sort _ LH.timed by_duration_total by_duration_trans)
    by exact Htimed.
  do 2 f_equal. clear Htimed.
  induction tasks as [|t tasks IH]; simpl; [done|].
  destruct (JS.is_boolean (LH.unbounded t)) eqn:Hb; simpl.
  - rewrite (is_longtask_boolean t Hb). by rewrite IH.
  - rewrite <- IH.
    assert (LongTasksV1.is_longtask t = false) as ->; [|done].
    unfold LongTasksV1.is_longtask.
    destruct (LH.unbounded t) as [| |[]| |]; simpl in *;
      try discriminate; by rewrite ?andb_false_r.
Qed.

Lemma v1_is_current_on_boolean_flags_witness :
  Forall (λ t, JS.is_NaN (LH.duration t) = false)
    (task_without_flag :: tied_tasks)
  ∧ LongTasksV1.longtasks (task_without_flag :: tied_tasks)
    = LongTasks.longtasks tied_tasks.
Proof.
  assert (Forall (λ t, JS.is_NaN (LH.duration t) = false)
            (task_without_flag :: tied_tasks))
    as Htimed by (repeat constructor).
  split; [exact Htimed|].
  exact (v1_is_current_on_boolean_flags (task_without_flag :: tied_tasks)
           Htimed).
Defined.

(** ** The set of script URLs *)

Lemma is_Script_true r : is_Script r = true ↔ r = Script.
Proof. by destruct r. Qed.

Lemma elem_of_add_loop u records : ∀ urls,
  u ∈ foldl LongTasksV1.add_if_script urls records
  ↔ u ∈ urls
    ∨ ∃ record, record ∈ records ∧ LH.resourceType record = Script
                ∧ LH.url record = u.
Proof.
  induction records as [|r records IH]; intros urls; simpl.
  - split; [by left|]. intros [?|(? & []%elem_of_nil & _)]. done.
  - rewrite IH. unfold LongTasksV1.add_if_script at 1.
    destruct (is_Script (LH.resourceType r)) eqn:Hs.
    + apply is_Script_true in Hs. rewrite elem_of_union, elem_of_singleton.
      split.
      * intros [[->|?]|(r' & ? & ? & ?)]; [right|by left|right].
        -- exists r. split; [by left|done].
        -- exists r'. split; [by right|done].
      * intros [?|(r' & [->|?]%elem_of_cons & ? & ?)]; [by left; right| |].
        -- left; by left.
        -- right. by exists r'.
    + assert (LH.resourceType r ≠ Script) as Hns.
      { intros Heq%is_Script_true. congruence. }
      split.
      * intros [?|(r' & ? & ? & ?)]; [by left|right].
        exists r'. split; [by right|done].
      * intros [?|(r' & [->|?]%elem_of_cons & ? & ?)]; [by left|done|].
        right. by exists r'.
Qed.

(** X13. A URL is in the set [getJavaScriptURLs] builds exactly when some
    record of type [Script] carries it; both copies of the method build the
    same set. *)
Theorem script_urls_membership records u :
  (u ∈ LongTasksV1.getJavaScriptURLs records
   ↔ ∃ record, record ∈ records ∧ LH.resourceType record = Script
               ∧ LH.url record = u)
  ∧ MainThreadTasks.getJavaScriptURLs records
    = LongTasksV1.getJavaScriptURLs records.
Proof.
  split; [|done]. unfold LongTasksV1.getJavaScriptURLs.
  rewrite elem_of_add_loop. split; [|by right].
  by intros [[]%not_elem_of_empty|?].
Qed.

(** X14. The set of script URLs of two record lists put together is the
    union of their sets, and the order of the records does not matter. *)
Theorem script_urls_union records1 records2 :
  LongTasksV1.getJavaScriptURLs (records1 ++ records2)
  = LongTasksV1.getJavaScriptURLs records1
    ∪ LongTasksV1.getJavaScriptURLs records2
  ∧ LongTasksV1.getJavaScriptURLs (records2 ++ records1)
    = LongTasksV1.getJavaScriptURLs (records1 ++ records2).
Proof.
  unfold LongTasksV1.getJavaScriptURLs.
  split; apply set_eq; intros u;
    rewrite ?elem_of_union, !elem_of_add_loop;
    setoid_rewrite elem_of_app; firstorder.
Qed.

(** ** Attribution: which string comes out *)

Lemma attribution_of_known task jsURLs u :
  List.find (JS.has jsURLs) (attributableURLs task) = Some u →
  u ≠ "" → u ≠ "about:blank" →
  LongTasksV1.getAttributableURLForTask task jsURLs = JS.String u.
Proof.
  intros Hfind Hne Hnb. unfold LongTasksV1.getAttributableURLForTask.
  unfold Array.find. change (λ url, JS.has jsURLs url) with (JS.has jsURLs).
  rewrite Hfind. simpl.
  apply String.eqb_neq in Hne, Hnb.
  unfold JS.or, JS.not. simpl. rewrite Hne. simpl. by rewrite Hne, Hnb.
Qed.

Lemma attribution_of_known_blank task jsURLs :
  List.find (JS.has jsURLs) (attributableURLs task) = Some "about:blank" →
  LongTasksV1.getAttributableURLForTask task jsURLs
  = JS.String (Attributor.classify (name (event task))).
Proof.
  intros Hfind. unfold LongTasksV1.getAttributableURLForTask.
  rewrite fallthrough_is_classify. unfold Array.find.
  change (λ url, JS.has jsURLs url) with (JS.has jsURLs). by rewrite Hfind.
Qed.

Lemma attribution_of_first task jsURLs :
  List.find (JS.has jsURLs) (attributableURLs task) = None
  ∨ List.find (JS.has jsURLs) (attributableURLs task) = Some "" →
  LongTasksV1.getAttributableURLForTask task jsURLs
  = match head (attributableURLs task) with
    | Some v =>
        if String.eqb v "" || String.eqb v "about:blank"
        then JS.String (Attributor.classify (name (event task)))
        else JS.String v
    | None => JS.String (Attributor.classify (name (event task)))
    end.
Proof.
  intros Hfind. unfold LongTasksV1.getAttributableURLForTask.
  rewrite fallthrough_is_classify. unfold Array.find, Array.first.
  assert (JS.or (JS.of_option
                   (List.find (JS.has jsURLs) (attributableURLs task)))
                (JS.of_option (head (attributableURLs task)))
          = JS.of_option (head (attributableURLs task))) as Hor
    by (by destruct Hfind as [-> | ->]).
  change (λ url, JS.has jsURLs url) with (JS.has jsURLs).
  rewrite Hor. destruct (head _) as [v|]; simpl; [|done].
  unfold JS.not. simpl.
  by destruct (String.eqb v ""), (String.eqb v "about:blank").
Qed.

Lemma find_known_cases jsURLs urls :
  List.find (JS.has jsURLs) urls = None
  ∨ List.find (JS.has jsURLs) urls = Some ""
  ∨ List.find (JS.has jsURLs) urls = Some "about:blank"
  ∨ ∃ u, List.find (JS.has jsURLs) urls = Some u
         ∧ u ≠ "" ∧ u ≠ "about:blank".
Proof.
  destruct (List.find _ _) as [u|]; [|by left]. right.
  destruct (decide (u = "")) as [->|]; [by left|right].
  destruct (decide (u = "about:blank")) as [->|]; [by left|right].
  by exists u.
Qed.

Lemma find_first_known jsURLs pre u post :
  (∀ v, v ∈ pre → v ∉ jsURLs) → u ∈ jsURLs →
  List.find (JS.has jsURLs) (pre ++ u :: post) = Some u.
Proof.
  intros Hpre Hu. induction pre as [|v pre IH]; simpl.
  - unfold JS.has. by rewrite bool_decide_eq_true_2.
  - unfold JS.has at 1. rewrite bool_decide_eq_false_2.
    + apply IH. intros w Hw. apply Hpre. by right.
    + apply Hpre. by left.
Qed.

Lemma find_none_known jsURLs urls :
  (∀ v, v ∈ urls → v ∉ jsURLs) → List.find (JS.has jsURLs) urls = None.
Proof.
  intros Hnone. destruct (List.find _ _) as [u|] eqn:Hfind; [|done].
  apply find_some in Hfind as [Hin Hu%bool_decide_eq_true].
  by apply list_elem_of_In, Hnone in Hin.
Qed.

Lemma classify_not_blank eventName :
  Attributor.classify eventName ≠ ""
  ∧ Attributor.classify eventName ≠ "about:blank".
Proof.
  destruct (classify_cases eventName) as [-> | [-> | ->]]; by split.
Qed.

(** X15. Attribution always yields a string, never the empty one and never
    [about:blank]; it is one of the task's own candidate URLs or the label
    chosen by the event name. *)
Theorem attribution_never_blank task jsURLs :
  ∃ s, LongTasksV1.getAttributableURLForTask task jsURLs = JS.String s
       ∧ MainThreadTasks.getAttributableURLForTask task jsURLs = JS.String s
       ∧ s ≠ "" ∧ s ≠ "about:blank"
       ∧ (s ∈ attributableURLs task
          ∨ s = Attributor.classify (name (event task))).
Proof.
  assert (∃ s, LongTasksV1.getAttributableURLForTask task jsURLs = JS.String s
               ∧ s ≠ "" ∧ s ≠ "about:blank"
               ∧ (s ∈ attributableURLs task
                  ∨ s = Attributor.classify (name (event task))))
    as (s & Hs & ? & ? & ?); [|exists s; split; [done|split; [exact Hs|done]]].
  pose proof (classify_not_blank (name (event task))) as [Hc1 Hc2].
  assert (List.find (JS.has jsURLs) (attributableURLs task) = None
          ∨ List.find (JS.has jsURLs) (attributableURLs task) = Some "" →
          ∃ s, LongTasksV1.getAttributableURLForTask task jsURLs = JS.String s
               ∧ s ≠ "" ∧ s ≠ "about:blank"
               ∧ (s ∈ attributableURLs task
                  ∨ s = Attributor.classify (name (event task)))) as Hfirst.
  { intros Hf. rewrite attribution_of_first by done.
    destruct (head _) as [v|] eqn:Hhead; [|by eexists; eauto 10].
    destruct (String.eqb v "") eqn:E1; simpl; [by eexists; eauto 10|].
    destruct (String.eqb v "about:blank") eqn:E2; [by eexists; eauto 10|].
    apply String.eqb_neq in E1, E2. exists v. repeat split; try done.
    left. by apply head_Some_elem_of. }
  destruct (find_known_cases jsURLs (attributableURLs task))
    as [Hf|[Hf|[Hf|(u & Hf & Hne & Hnb)]]]; [by auto|by auto| |].
  - rewrite attribution_of_known_blank by done. by eexists; eauto 10.
  - rewrite (attribution_of_known _ _ u) by done.
    exists u. repeat split; try done. left.
    apply find_some in Hf as [Hin _]. by apply list_elem_of_In.
Qed.

(** X16. The first candidate URL that is a known script URL is the answer,
    whatever stands before or after it, provided it is neither empty nor
    [about:blank]. *)
Theorem first_known_script_wins task jsURLs pre u post :
  attributableURLs task = (pre ++ u :: post)%list →
  (∀ v, v ∈ pre → v ∉ jsURLs) → u ∈ jsURLs →
  u ≠ "" → u ≠ "about:blank" →
  LongTasksV1.getAttributableURLForTask task jsURLs = JS.String u.
Proof.
  intros Hurls Hpre Hu Hne Hnb. apply attribution_of_known; try done.
  rewrite Hurls. by apply find_first_known.
Qed.

Lemma first_known_script_wins_witness :
  LongTasksV1.getAttributableURLForTask task_in_script
    (LongTasksV1.getJavaScriptURLs sample_records)
  = JS.String "https://pwa.rocks/script.js".
Proof.
  apply (first_known_script_wins task_in_script _ ["https://pwa.rocks/"]
           "https://pwa.rocks/script.js" []); try done.
  intros v ->%list_elem_of_singleton. by vm_compute.
Defined.

(** X17. The answer depends on the set of script URLs only through the
    task's own candidate URLs: two sets that agree on them give the same
    answer. *)
Theorem attribution_depends_on_own_urls task jsURLs1 jsURLs2 :
  (∀ v, v ∈ attributableURLs task → v ∈ jsURLs1 ↔ v ∈ jsURLs2) →
  LongTasksV1.getAttributableURLForTask task jsURLs1
  = LongTasksV1.getAttributableURLForTask task jsURLs2.
Proof.
  intros Hagree. unfold LongTasksV1.getAttributableURLForTask.
  assert (Array.find (λ url, JS.has jsURLs1 url) (attributableURLs task)
          = Array.find (λ url, JS.has jsURLs2 url) (attributableURLs task))
    as ->; [|done].
  unfold Array.find.
  induction (attributableURLs task) as [|v urls IH]; simpl; [done|].
  assert (JS.has jsURLs1 v = JS.has jsURLs2 v) as ->.
  { unfold JS.has. apply bool_decide_ext, Hagree. by left. }
  rewrite IH; [done|]. intros w Hw. apply Hagree. by right.
Qed.

Lemma attribution_depends_on_own_urls_witness :
  LongTasksV1.getAttributableURLForTask long_script_task ∅
  = LongTasksV1.getAttributableURLForTask long_script_task
      (LongTasksV1.getJavaScriptURLs sample_records).
Proof.
  apply attribution_depends_on_own_urls.
  intros v ->%list_elem_of_singleton. by vm_compute.
Defined.

(** X18. A task whose first candidate URL is [about:blank] and none of
    whose candidates is a known script URL gets the label, even when
    other candidate URLs follow. *)
Theorem leading_blank_page_gets_label task jsURLs :
  head (attributableURLs task) = Some "about:blank" →
  (∀ v, v ∈ attributableURLs task → v ∉ jsURLs) →
  LongTasksV1.getAttributableURLForTask task jsURLs
  = JS.String (Attributor.classify (name (event task))).
Proof.
  intros Hhead Hnone.
  rewrite attribution_of_first by (left; by apply find_none_known).
  by rewrite Hhead.
Qed.

Lemma leading_blank_page_gets_label_witness :
  LongTasksV1.getAttributableURLForTask task_on_blank_page
    (LongTasksV1.getJavaScriptURLs sample_records)
  = JS.String "Browser GC".
Proof.
  apply (leading_blank_page_gets_label task_on_blank_page); [reflexivity|].
  intros v Hv. unfold task_on_blank_page in Hv. simpl in Hv.
  repeat (apply elem_of_cons in Hv as [->|Hv]); [by vm_compute..|].
  by apply elem_of_nil in Hv.
Defined.

(** X19. When the first candidate that is a known script URL is the empty
    string, the known scripts after it are not looked at: the answer is
    the one for an empty set of script URLs. *)
Theorem empty_known_script_disables_lookup task jsURLs pre post :
  attributableURLs task = (pre ++ "" :: post)%list →
  (∀ v, v ∈ pre → v ∉ jsURLs) → "" ∈ jsURLs →
  LongTasksV1.getAttributableURLForTask task jsURLs
  = LongTasksV1.getAttributableURLForTask task ∅.
Proof.
  intros Hurls Hpre Hempty.
  rewrite (attribution_of_first task jsURLs).
  - rewrite (attribution_of_first task ∅); [done|].
    left. apply find_none_known. intros v _. apply not_elem_of_empty.
  - right. rewrite Hurls. by apply find_first_known.
Qed.

Lemma empty_known_script_disables_lookup_witness :
  LongTasksV1.getAttributableURLForTask
    (sample_task "RunTask" 0 100
       ["https://pwa.rocks/"; ""; "https://pwa.rocks/script.js"])
    {[ ""; "https://pwa.rocks/script.js" ]}
  = JS.String "https://pwa.rocks/".
Proof.
  rewrite (empty_known_script_disables_lookup _ _ ["https://pwa.rocks/"]
             ["https://pwa.rocks/script.js"]); [reflexivity|reflexivity| |].
  - intros v ->%list_elem_of_singleton. by vm_compute.
  - by vm_compute.
Defined.

(** X20. For a task without candidate URLs the answer is [Browser]
    exactly for the event [CpuProfiler::StartProfiling], [Browser GC]
    exactly for [V8.GCCompactor], [MajorGC] and [MinorGC], and
    [Unattributable] for every other event. *)
Theorem labels_by_event_name task jsURLs :
  attributableURLs task = [] →
  let resolved := LongTasksV1.getAttributableURLForTask task jsURLs in
  let eventName := name (event task) in
  (resolved = JS.String "Browser" ↔ eventName = "CpuProfiler::StartProfiling")
  ∧ (resolved = JS.String "Browser GC"
     ↔ eventName = "V8.GCCompactor" ∨ eventName = "MajorGC"
       ∨ eventName = "MinorGC")
  ∧ (resolved = JS.String "Unattributable"
     ↔ eventName ≠ "CpuProfiler::StartProfiling"
       ∧ eventName ≠ "V8.GCCompactor" ∧ eventName ≠ "MajorGC"
       ∧ eventName ≠ "MinorGC").
Proof.
  intros Hurls resolved eventName. subst resolved.
  rewrite attribution_of_first by (left; by rewrite Hurls).
  rewrite Hurls. simpl. fold eventName.
  generalize eventName. clear. intros n.
  unfold Attributor.classify, LongTasksV1.BROWSER_TASK_NAMES_SET,
    LongTasksV1.BROWSER_GC_TASK_NAMES_SET.
  rewrite !bool_decide_decide.
  destruct (decide (n ∈ _)) as [Hb|Hb];
    [|destruct (decide (n ∈ _)) as [Hgc|Hgc]];
    rewrite ?elem_of_union, ?not_elem_of_union, ?elem_of_singleton in *;
    intuition (subst; try discriminate; try congruence).
Qed.

Lemma labels_by_event_name_witness :
  LongTasksV1.getAttributableURLForTask
    (sample_task "V8.GCCompactor" 0 100 []) ∅ = JS.String "Browser GC".
Proof.
  destruct (labels_by_event_name (sample_task "V8.GCCompactor" 0 100 []) ∅)
    as (_ & Hgc & _); [reflexivity|].
  apply Hgc. by left.
Defined.

(** X21. Attribution after [getJavaScriptURLs]: the first candidate URL
    that some network record of type [Script] carries is the answer,
    provided it is neither empty nor [about:blank]. *)
Theorem script_record_attributes_task task records pre u post record :
  attributableURLs task = (pre ++ u :: post)%list →
  (∀ v r, v ∈ pre → r ∈ records → LH.resourceType r = Script →
          LH.url r ≠ v) →
  record ∈ records → LH.resourceType record = Script → LH.url record = u →
  u ≠ "" → u ≠ "about:blank" →
  LongTasksV1.getAttributableURLForTask task
    (LongTasksV1.getJavaScriptURLs records) = JS.String u.
Proof.
  intros Hurls Hpre Hin Htype Hurl Hne Hnb.
  apply attribution_of_known; try done.
  rewrite Hurls. apply find_first_known.
  - intros v Hv. unfold LongTasksV1.getJavaScriptURLs.
    rewrite elem_of_add_loop.
    intros [[]%not_elem_of_empty|(r & Hr & Hs & Heq)].
    by eapply Hpre.
  - unfold LongTasksV1.getJavaScriptURLs. rewrite elem_of_add_loop.
    right. by exists record.
Qed.

Lemma script_record_attributes_task_witness :
  LongTasksV1.getAttributableURLForTask task_in_script
    (LongTasksV1.getJavaScriptURLs
       ({| LH.url := "https://pwa.rocks/script.js"; resourceType := Script |}
        :: sample_records))
  = JS.String "https://pwa.rocks/script.js".
Proof.
  apply (script_record_attributes_task task_in_script _
           ["https://pwa.rocks/"] "https://pwa.rocks/script.js" []
           {| LH.url := "https://pwa.rocks/script.js";
              resourceType := Script |}); try done; [|by left].
  intros v r ->%list_elem_of_singleton Hr Hs.
  repeat (apply elem_of_cons in Hr as [->|Hr]); try discriminate Hs;
    try (by apply elem_of_nil in Hr); by vm_compute.
Defined.

(** ** The heap: what is allocated, what is written *)

(** X22. [getJavaScriptURLs] returns a set it allocated itself, holding the
    URLs of the [Script] records, and leaves every object of the heap it
    found, the record array included, as it was. *)
Theorem script_set_is_fresh records rs (h : gmap Heap.ref Heap.Obj) :
  h !! records = Some (Heap.Records rs) →
  Heap.returns (Heap.getJavaScriptURLs records) h (λ urls h',
    h !! urls = None
    ∧ h' !! urls = Some (Heap.Urls (LongTasksV1.getJavaScriptURLs rs))
    ∧ ∀ r o, h !! r = Some o → h' !! r = Some o).
Proof.
  intros Hrs. eapply returns_getJavaScriptURLs; [done|].
  intros urls Hfresh. split; [done|]. split; [apply lookup_insert_eq|].
  intros r o Hr. rewrite lookup_insert_ne; [done|]. intros ->. congruence.
Qed.

Lemma script_set_is_fresh_witness :
  Heap.returns (Heap.getJavaScriptURLs 2%positive) sample_heap (λ urls h',
    sample_heap !! urls = None
    ∧ h' !! urls
      = Some (Heap.Urls (LongTasksV1.getJavaScriptURLs sample_records))
    ∧ ∀ r o, sample_heap !! r = Some o → h' !! r = Some o).
Proof.
  apply (script_set_is_fresh 2%positive sample_records sample_heap).
  reflexivity.
Defined.

(** X23. The rows the audit returns lie in an array the run allocated, no
    object that existed before is handed out as the result; and they are
    the rows computed from the contents of the task array and the record
    array, as are the score and the display value. *)
Theorem result_rows_are_fresh tasks networkRecords ts rs
    (h : gmap Heap.ref Heap.Obj) :
  h !! tasks = Some (Heap.Tasks ts) →
  h !! networkRecords = Some (Heap.Records rs) →
  Heap.returns (Heap.audit tasks networkRecords) h (λ product h',
    h !! Audit.items (Audit.details product) = None
    ∧ h' !! Audit.items (Audit.details product)
      = Some (Heap.Items
                (Audit.items (Audit.details (LongTasks.audit ts rs))))
    ∧ Audit.score product = 1%Q
    ∧ Audit.displayValue product
      = Audit.displayValue (LongTasks.audit ts rs)).
Proof.
  intros Hts Hrs.
  destruct (audit_returns _ _ _ _ _ Hts Hrs)
    as (p & h' & Hrun & _ & Hnew & Hrows & _ & Hscore & Hdisplay).
  exists p, h'. by repeat split.
Qed.

Lemma result_rows_are_fresh_witness :
  Heap.returns (Heap.audit 1%positive 2%positive) sample_heap (λ product h',
    sample_heap !! Audit.items (Audit.details product) = None
    ∧ h' !! Audit.items (Audit.details product)
      = Some (Heap.Items
                (Audit.items (Audit.details
                   (LongTasks.audit sample_tasks sample_records))))
    ∧ Audit.score product = 1%Q
    ∧ Audit.displayValue product
      = Audit.displayValue (LongTasks.audit sample_tasks sample_records)).
Proof.
  apply (result_rows_are_fresh 1%positive 2%positive); reflexivity.
Defined.

(** X24. The earlier revision sorts the spread copy in place, not the task
    array it was given: its run returns, leaves every object of the heap
    it started from as it was, and returns in a new array the rows of the
    tasks it selects. *)
Theorem v1_inputs_not_mutated tasks networkRecords ts rs
    (h : gmap Heap.ref Heap.Obj) :
  h !! tasks = Some (Heap.Tasks ts) →
  h !! networkRecords = Some (Heap.Records rs) →
  Heap.returns (HeapV1.audit tasks networkRecords) h (λ product h',
    h' !! tasks = Some (Heap.Tasks ts)
    ∧ h' !! networkRecords = Some (Heap.Records rs)
    ∧ (∀ r o, h !! r = Some o → h' !! r = Some o)
    ∧ h !! Audit.items (Audit.details product) = None
    ∧ h' !! Audit.items (Audit.details product)
      = Some (Heap.Items
                (Audit.items (Audit.details (LongTasksV1.audit ts rs))))
    ∧ Audit.displayValue product = None).
Proof.
  intros Hts Hrs. unfold HeapV1.audit.
  apply returns_bind. eapply returns_getJavaScriptURLs; [done|].
  intros urls Hurls.
  apply returns_bind. unfold Heap.spread.
  apply returns_bind. eapply returns_read_tasks.
  { rewrite lookup_insert_ne; [done|]. intros ->. congruence. }
  apply returns_alloc. intros copy Hcopy.
  apply returns_bind. unfold Heap.sort.
  apply returns_bind. eapply returns_read_tasks; [apply lookup_insert_eq|].
  apply returns_bind, returns_write, returns_ret. rewrite insert_insert_eq.
  apply returns_bind. unfold Heap.filter.
  apply returns_bind. eapply returns_read_tasks; [apply lookup_insert_eq|].
  apply returns_alloc. intros filtered Hfiltered.
  apply returns_bind. unfold Heap.slice0.
  apply returns_bind. eapply returns_read_tasks; [apply lookup_insert_eq|].
  apply returns_alloc. intros longtasks Hlongtasks.
  apply returns_bind. unfold Heap.map.
  apply returns_bind. eapply returns_read_tasks; [apply lookup_insert_eq|].
  apply returns_bind.
  apply lookup_insert_None in Hcopy as [Hcopy ?].
  repeat (apply lookup_insert_None in Hfiltered as [Hfiltered ?]).
  repeat (apply lookup_insert_None in Hlongtasks as [Hlongtasks ?]).
  eapply returns_each_row.
  { rewrite !lookup_insert_ne by done. apply lookup_insert_eq. }
  apply returns_alloc. intros results Hresults.
  apply returns_ret.
  repeat (apply lookup_insert_None in Hresults as [Hresults ?]).
  match goal with
  | |- _ ∧ _ ∧ (∀ r o, _ → ?h' !! r = Some o) ∧ _ =>
      assert (h ⊆ h') as Hsub
  end.
  { repeat (apply insert_subseteq_r; [done|]). done. }
  split; [by eapply lookup_weaken|]. split; [by eapply lookup_weaken|].
  split; [intros r o Hr; by eapply lookup_weaken|].
  split; [done|]. split; [|done].
  simpl. by rewrite lookup_insert_eq.
Qed.

Lemma v1_inputs_not_mutated_witness :
  Heap.returns (HeapV1.audit 5%positive 7%positive) other_heap
    (λ product h',
       h' !! 5%positive = Some (Heap.Tasks sample_tasks)
       ∧ h' !! 7%positive = Some (Heap.Records sample_records)
       ∧ (∀ r o, other_heap !! r = Some o → h' !! r = Some o)
       ∧ other_heap !! Audit.items (Audit.details product) = None
       ∧ h' !! Audit.items (Audit.details product)
         = Some (Heap.Items
                   (Audit.items (Audit.details
                      (LongTasksV1.audit sample_tasks sample_records))))
       ∧ Audit.displayValue product = None).
Proof.
  apply (v1_inputs_not_mutated 5%positive 7%positive); reflexivity.
Defined.

(** ** The layout-shift-elements audit *)

Lemma is_cls_spec element :
  LayoutShiftElements.is_cls element = true
  ↔ LayoutShiftElements.metricName element
    = JS.String "cumulative-layout-shift".
Proof.
  unfold LayoutShiftElements.is_cls, JS.is_string.
  destruct (LayoutShiftElements.metricName element) as [| | | |s];
    try (split; intros; discriminate).
  rewrite String.eqb_eq. split; [by intros ->|by intros [= ->]].
Qed.

(** X25. The rows of the layout-shift audit are the nodes of exactly the
    trace elements whose metric is [cumulative-layout-shift], in the order
    of the input; there is no cap: when every element has that metric there
    is one row per element. *)
Theorem cls_rows elements :
  let rows := Audit.items (Audit.details (LayoutShiftElements.audit elements)) in
  (∀ row, row ∈ rows
          ↔ ∃ element,
              element ∈ elements
              ∧ LayoutShiftElements.metricName element
                = JS.String "cumulative-layout-shift"
              ∧ row = LayoutShiftElements.toItem element)
  ∧ ((λ row, LayoutShiftElements.Details.path (LayoutShiftElements.node row))
       <$> rows)
    `sublist_of` (LayoutShiftElements.devtoolsNodePath <$> elements)
  ∧ (Forall (λ element, LayoutShiftElements.metricName element
                        = JS.String "cumulative-layout-shift") elements →
     rows = LayoutShiftElements.toItem <$> elements).
Proof.
  intros rows. subst rows. simpl. unfold Array.map, Array.filter.
  split; [|split].
  - intros row. rewrite list_elem_of_fmap. split.
    + intros (e & -> & He). apply list_elem_of_In, filter_In in He as [He Hc].
      exists e. split; [by apply list_elem_of_In|].
      split; [by apply is_cls_spec|done].
    + intros (e & He & Hm & ->). exists e. split; [done|].
      apply list_elem_of_In, filter_In.
      split; [by apply list_elem_of_In|by apply is_cls_spec].
  - rewrite <- list_fmap_compose.
    change ((λ row, LayoutShiftElements.Details.path
                      (LayoutShiftElements.node row))
            ∘ LayoutShiftElements.toItem)
      with LayoutShiftElements.devtoolsNodePath.
    apply fmap_sublist, filter_is_sublist.
  - intros Hall. rewrite filter_all; [done|].
    eapply Forall_impl; [exact Hall|]. intros e. apply is_cls_spec.
Qed.

Lemma cls_rows_witness :
  Audit.items (Audit.details
    (LayoutShiftElements.audit (drop 1 sample_elements)))
  = LayoutShiftElements.toItem <$> drop 1 sample_elements.
Proof.
  destruct (cls_rows (drop 1 sample_elements)) as (_ & _ & Hall).
  apply Hall. by repeat constructor.
Defined.

(** X26. The layout-shift audit always gives a display value, also without
    any row: "No elements found" for none, the singular phrase for one,
    and for more, up to 999 where the formatter starts grouping digits,
    the count written in. *)
Theorem cls_display_value elements :
  let product := LayoutShiftElements.audit elements in
  let count := length (Audit.items (Audit.details product)) in
  (count = 0%nat → Audit.displayValue product = Some "No elements found")
  ∧ (count = 1%nat → Audit.displayValue product = Some "1 element found")
  ∧ ((1 < count < 1000)%nat →
     Audit.displayValue product = Some (pretty count +:+ " elements found"))
  ∧ Audit.displayValue product ≠ None.
Proof.
  intros product count. subst product. simpl in *. fold count.
  destruct count as [|[|n]]; simpl.
  - repeat split; intros; try done; lia.
  - repeat split; intros; try done; lia.
  - repeat split; intros; done.
Qed.

Lemma cls_display_value_witness :
  Audit.displayValue (LayoutShiftElements.audit sample_elements)
    = Some "2 elements found"
  ∧ Audit.displayValue (LayoutShiftElements.audit (take 1 sample_elements))
    = Some "No elements found".
Proof.
  split.
  - destruct (cls_display_value sample_elements) as (_ & _ & Hmany & _).
    apply Hmany. vm_compute. lia.
  - destruct (cls_display_value (take 1 sample_elements)) as (Hnone & _).
    apply Hnone. reflexivity.
Defined.
